(** * Light-curve ingestion and physics characterisation engine

    A shallow embedding of three source files of the exoplanet explorer:
    the light-curve parser ([parseCSVData], [parseTextData] and the mock
    generator), the physics calculation service ([PhysicsCalculationService])
    and the scorer front end ([MLModelService.predict]).

    JavaScript numbers are IEEE 754 binary64 values.  The parser and the
    scorer are embedded over Rocq's primitive floats, which are exactly that
    format.  The physics service is written once, over an interface of
    number operations ([JSNumber]), and read twice: over binary64, where
    [Math.cbrt] and [Math.pow] are implementation-approximated and taken
    from a [Libm] record except at the arguments ECMAScript fixes, and over
    exact real arithmetic with a NaN, where algebraic laws can be stated. *)

From Stdlib Require Import Bool List ZArith QArith String Ascii.
From Stdlib Require Import PrimFloat FloatOps FloatAxioms SpecFloat Uint63.
From Stdlib Require Import Reals Lra Lia.
Import ListNotations.

Set Warnings "-inexact-float".
Set Implicit Arguments.

(** ** Numbers *)

(** The operations of a JavaScript number that the physics service uses.
    [lit] is a decimal literal of the source text. *)
Class JSNumber (T : Type) : Type := {
  lit : Q -> T;
  NaN : T;
  mul : T -> T -> T;
  div : T -> T -> T;
  sub : T -> T -> T;
  leb : T -> T -> bool;
  ltb : T -> T -> bool;
  Math_sqrt : T -> T;
  Math_cbrt : T -> T;
  Math_pow : T -> T -> T;
  Math_PI : T
}.

Declare Scope js_scope.
Delimit Scope js_scope with js.
Notation "'$' q" := (lit q%Q) (at level 1, q constr at level 0, format "'$' q") : js_scope.
Infix "*" := mul : js_scope.
Infix "/" := div : js_scope.
Infix "-" := sub : js_scope.
Infix "<=" := leb : js_scope.
Infix "<" := ltb : js_scope.
Notation "a >= b" := (leb b a) : js_scope.
Notation "a > b" := (ltb b a) : js_scope.

Module Binary64.

(** Nearest binary64 value of the positive rational [n/d], ties to even:
    how a decimal literal, and the argument of [parseFloat], becomes a
    number. *)
Definition round_ratio (n d : positive) : float :=
  let l := (Z.log2 (Zpos n) - Z.log2 (Zpos d))%Z in
  let scaled (e : Z) : Z * Z :=
    if (0 <=? e)%Z then (Zpos n, Zpos d * 2 ^ e)%Z
    else (Zpos n * 2 ^ (- e), Zpos d)%Z in
  let e1 := (l - 53)%Z in
  let e2 := (if (let '(N, D) := scaled e1 in N / D <? 2 ^ 53)
             then e1 else e1 + 1)%Z in
  let e := Z.max e2 (-1074) in
  let '(N, D) := scaled e in
  let q := (N / D)%Z in
  let r := (N mod D)%Z in
  let q' := (match (2 * r ?= D) with
             | Lt => q
             | Gt => q + 1
             | Eq => if Z.even q then q else q + 1
             end)%Z in
  Z.ldexp (PrimFloat.of_uint63 (Uint63.of_Z q')) e.

Definition of_Q (q : Q) : float :=
  match Qnum q with
  | Z0 => 0%float
  | Zpos n => round_ratio n (Qden q)
  | Zneg n => PrimFloat.opp (round_ratio n (Qden q))
  end.

Definition of_nat (n : nat) : float := of_Q (inject_Z (Z.of_nat n)).

Definition isNaN (x : float) : bool := PrimFloat.is_nan x.
Definition is_zero (x : float) : bool := PrimFloat.eqb x 0%float.
Definition is_negative (x : float) : bool := PrimFloat.get_sign x.

(** The exact value of a finite float as [m * 2^e]. *)
Definition to_mant_exp (x : float) : option (Z * Z) :=
  match Prim2SF x with
  | S754_zero _ => Some (0, 0)%Z
  | S754_finite s m e => Some (if s then Zneg m else Zpos m, e)
  | _ => None
  end.

Definition is_integer (x : float) : bool :=
  match to_mant_exp x with
  | Some (m, e) => (0 <=? e)%Z || (m mod 2 ^ (- e) =? 0)%Z
  | None => false
  end.

Definition is_odd_integer (x : float) : bool :=
  match to_mant_exp x with
  | Some (m, e) =>
      if (0 <? e)%Z then false
      else (m mod 2 ^ (- e) =? 0)%Z && Z.odd (m / 2 ^ (- e))
  | None => false
  end.

(** [Math.ceil] of a finite float, as an integer. *)
Definition ceilZ (x : float) : option Z :=
  match to_mant_exp x with
  | Some (m, e) =>
      Some (if (0 <=? e)%Z then m * 2 ^ e else - ((- m) / 2 ^ (- e)))%Z
  | None => None
  end.

(** The remainder operator [x % y]: the sign of the dividend, computed
    exactly. *)
Definition rem (x y : float) : float :=
  match Prim2SF x, Prim2SF y with
  | S754_nan, _ | _, S754_nan => nan
  | S754_infinity _, _ => nan
  | _, S754_zero _ => nan
  | _, S754_infinity _ => x
  | S754_zero _, _ => x
  | S754_finite sx mx ex, S754_finite _ my ey =>
      let e := Z.min ex ey in
      let X := (Zpos mx * 2 ^ (ex - e))%Z in
      let Y := (Zpos my * 2 ^ (ey - e))%Z in
      let r := (X mod Y)%Z in
      let v := Z.ldexp (PrimFloat.of_uint63 (Uint63.of_Z r)) e in
      if sx then PrimFloat.opp v else v
  end.

(** [Math.max(a, b)] and [Math.min(a, b)]: NaN if either is NaN, and +0
    above -0. *)
Definition max2 (a b : float) : float :=
  if isNaN a || isNaN b then nan
  else if PrimFloat.ltb a b then b
  else if PrimFloat.ltb b a then a
  else if is_negative a then b else a.

Definition min2 (a b : float) : float :=
  if isNaN a || isNaN b then nan
  else if PrimFloat.ltb a b then a
  else if PrimFloat.ltb b a then b
  else if is_negative a then a else b.

(** [Math.max(...l)] and [Math.min(...l)]. *)
Definition Math_max (l : list float) : float := fold_left max2 l neg_infinity.
Definition Math_min (l : list float) : float := fold_left min2 l infinity.

(** [Math.round]: the nearest integer, ties towards +Infinity; -0 for
    arguments in [-0.5, -0]. *)
Definition Math_round (x : float) : float :=
  match to_mant_exp x with
  | Some (m, e) =>
      if (0 <=? e)%Z then x
      else
        let n := ((2 * m + 2 ^ (- e)) / 2 ^ (- e + 1))%Z in
        if (n =? 0)%Z then (if is_negative x then (-0)%float else 0%float)
        else of_Q (inject_Z n)
  | None => x
  end.

(** The functions ECMAScript leaves implementation-approximated, at the
    arguments where it prescribes no value. *)
Record Libm : Type := {
  cbrt_approx : float -> float;
  pow_approx : float -> float -> float
}.

(** [Math.cbrt]: NaN, zeros and infinities are returned as they are. *)
Definition cbrt (m : Libm) (x : float) : float :=
  if isNaN x || is_zero x || PrimFloat.is_infinity x then x
  else cbrt_approx m x.

(** [Math.pow], following the case list of Number::exponentiate. *)
Definition pow (m : Libm) (b e : float) : float :=
  if isNaN e then nan
  else if is_zero e then 1%float
  else if isNaN b then nan
  else if PrimFloat.is_infinity b then
    if is_negative b then
      if PrimFloat.ltb 0 e
      then (if is_odd_integer e then neg_infinity else infinity)
      else (if is_odd_integer e then (-0)%float else 0%float)
    else (if PrimFloat.ltb 0 e then infinity else 0%float)
  else if is_zero b then
    if is_negative b then
      if PrimFloat.ltb 0 e
      then (if is_odd_integer e then (-0)%float else 0%float)
      else (if is_odd_integer e then neg_infinity else infinity)
    else (if PrimFloat.ltb 0 e then 0%float else infinity)
  else if PrimFloat.is_infinity e then
    if PrimFloat.ltb 1 (PrimFloat.abs b)
    then (if is_negative e then 0%float else infinity)
    else if PrimFloat.eqb (PrimFloat.abs b) 1 then nan
    else (if is_negative e then infinity else 0%float)
  else if PrimFloat.ltb b 0 && negb (is_integer e) then nan
  else pow_approx m b e.

Definition PI64 : float := of_Q 3.141592653589793.

Definition number (m : Libm) : JSNumber float := {|
  lit := of_Q;
  NaN := nan;
  mul := PrimFloat.mul;
  div := PrimFloat.div;
  sub := PrimFloat.sub;
  leb := PrimFloat.leb;
  ltb := PrimFloat.ltb;
  Math_sqrt := PrimFloat.sqrt;
  Math_cbrt := cbrt m;
  Math_pow := pow m;
  Math_PI := PI64
|}.

End Binary64.

Module Exact.

(** Exact real arithmetic with a NaN: no rounding, no overflow and no
    underflow.  A quotient by zero and a power with no real value have no
    finite result and are NaN here. *)
Inductive xreal : Type :=
| XNaN : xreal
| XFin : R -> xreal.

Definition lift2 (f : R -> R -> R) (a b : xreal) : xreal :=
  match a, b with
  | XFin x, XFin y => XFin (f x y)
  | _, _ => XNaN
  end.

Definition xdiv (a b : xreal) : xreal :=
  match a, b with
  | XFin x, XFin y => if Req_dec_T y 0 then XNaN else XFin (x / y)
  | _, _ => XNaN
  end.

Definition xleb (a b : xreal) : bool :=
  match a, b with
  | XFin x, XFin y => if Rle_dec x y then true else false
  | _, _ => false
  end.

Definition xltb (a b : xreal) : bool :=
  match a, b with
  | XFin x, XFin y => if Rlt_dec x y then true else false
  | _, _ => false
  end.

Definition xsqrt (a : xreal) : xreal :=
  match a with
  | XFin x => if Rle_dec 0 x then XFin (sqrt x) else XNaN
  | XNaN => XNaN
  end.

(** The real cube root. *)
Definition Rcbrt (x : R) : R :=
  match total_order_T 0 x with
  | inleft (left _) => exp (ln x / 3)
  | inleft (right _) => 0
  | inright _ => - exp (ln (- x) / 3)
  end.

Definition xcbrt (a : xreal) : xreal :=
  match a with
  | XFin x => XFin (Rcbrt x)
  | XNaN => XNaN
  end.

(** The real power: [exp (e * ln b)] for a positive base, the sign rule
    for a negative base and an integer exponent. *)
Definition xpow (a b : xreal) : xreal :=
  match a, b with
  | _, XNaN => XNaN
  | XNaN, XFin e => if Req_dec_T e 0 then XFin 1 else XNaN
  | XFin x, XFin e =>
      if Req_dec_T e 0 then XFin 1
      else match total_order_T 0 x with
           | inleft (left _) => XFin (Rpower x e)
           | inleft (right _) => if Rlt_dec 0 e then XFin 0 else XNaN
           | inright _ =>
               if Req_dec_T (IZR (Int_part e)) e
               then XFin ((if Z.odd (Int_part e) then -1 else 1) * Rpower (- x) e)
               else XNaN
           end
  end.

Definition number : JSNumber xreal := {|
  lit := fun q => XFin (Q2R q);
  NaN := XNaN;
  mul := lift2 Rmult;
  div := xdiv;
  sub := lift2 Rminus;
  leb := xleb;
  ltb := xltb;
  Math_sqrt := xsqrt;
  Math_cbrt := xcbrt;
  Math_pow := xpow;
  Math_PI := XFin PI
|}.

End Exact.

(** ** The physics calculation service *)

Module Physics.

Record PhysicsCalculationInput (T : Type) : Type := {
  orbitalPeriodDays : option T;
  semiMajorAxisAU : option T;
  radiusEarth : option T;
  massEarth : option T;
  starTempK : option T;
  starRadiusSolar : option T;
  starMassSolar : option T;
  starLuminositySolar : option T;
  transitDepthPPM : option T;
  transitDurationHours : option T
}.

Record HabitableZone (T : Type) : Type := {
  inner : T;
  outer : T
}.

Record PhysicsCalculationResult (T : Type) : Type := {
  r_orbitalPeriodDays : T;
  r_semiMajorAxisAU : T;
  r_equilibriumTemperatureK : T;
  r_habitableZoneInnerAU : T;
  r_habitableZoneOuterAU : T;
  r_inHabitableZone : bool;
  r_surfaceGravityMS2 : T;
  r_escapeVelocityMS : T;
  r_densityGCM3 : T;
  r_starLuminositySolar : T;
  r_starRadiusM : T;
  r_isPhysicallyPlausible : bool;
  r_warnings : list string
}.

(** [o ?? d]: the value of an optional field, [d] when it is absent. *)
Definition nullish {A : Type} (o : option A) (d : A) : A :=
  match o with
  | Some v => v
  | None => d
  end.

Notation "o ?? d" := (nullish o d) (at level 45, left associativity).

(** [warnings.push(w)] when [c] holds. *)
Definition push_if (c : bool) (w : string) (warnings : list string) : list string :=
  if c then warnings ++ [w] else warnings.

Section Service.

Context {T : Type} {N : JSNumber T}.
Local Open Scope js_scope.

Definition G : T := $6.67430e-11.
Definition SIGMA : T := $5.670374419e-8.
Definition M_SUN : T := $1.98847e30.
Definition R_SUN : T := $6.957e8.
Definition L_SUN : T := $3.828e26.
Definition AU : T := $1.495978707e11.
Definition M_EARTH : T := $5.972e24.
Definition R_EARTH : T := $6.371e6.

(** Kepler's third law, [a^3 = G M P^2 / (4 pi^2)].  The second
    parameter has the default 1.0 in the source; every call there
    passes it. *)
Definition calculateSemiMajorAxis (periodDays starMassSolar : T) : T :=
  if (periodDays <= $0) || (starMassSolar <= $0) then NaN
  else
    let P := periodDays * $24.0 * $3600.0 in
    let M := starMassSolar * M_SUN in
    let a_cubed := G * M * P * P / ($4.0 * Math_PI * Math_PI) in
    let a := Math_cbrt a_cubed in
    a / AU.

Definition calculateOrbitalPeriod (semiMajorAxisAU starMassSolar : T) : T :=
  if (semiMajorAxisAU <= $0) || (starMassSolar <= $0) then NaN
  else
    let a := semiMajorAxisAU * AU in
    let M := starMassSolar * M_SUN in
    let T_squared := ($4.0 * Math_PI * Math_PI * a * a * a) / (G * M) in
    let T' := Math_sqrt T_squared in
    T' / ($24.0 * $3600.0).

Definition calculateStellarLuminosity (radiusSolar tempK : T) : T :=
  if (radiusSolar <= $0) || (tempK <= $0) then NaN
  else
    let R := radiusSolar * R_SUN in
    let L := $4.0 * Math_PI * R * R * SIGMA * Math_pow tempK $4 in
    L / L_SUN.

(** The fourth parameter is optional in the source, with default 0.3. *)
Definition calculateEquilibriumTemperature
    (starTempK starRadiusSolar semiMajorAxisAU : T) (albedo : option T) : T :=
  let albedo := albedo ?? $0.3 in
  if (starTempK <= $0) || (starRadiusSolar <= $0) || (semiMajorAxisAU <= $0)
  then NaN
  else
    let a := semiMajorAxisAU * AU in
    let R_star := starRadiusSolar * R_SUN in
    let term := Math_sqrt (R_star / ($2.0 * a)) in
    let absorption := Math_pow ($1.0 - albedo) $0.25 in
    starTempK * term * absorption.

Definition calculateHabitableZone (starLuminositySolar : T) : HabitableZone T :=
  if starLuminositySolar <= $0 then {| inner := NaN; outer := NaN |}
  else
    let scale := Math_sqrt starLuminositySolar in
    let inner := $0.95 * scale in
    let outer := $1.67 * scale in
    {| inner := inner; outer := outer |}.

Definition calculateSurfaceGravity (radiusEarth massEarth : T) : T :=
  if (radiusEarth <= $0) || (massEarth <= $0) then NaN
  else
    let R := radiusEarth * R_EARTH in
    let M := massEarth * M_EARTH in
    (G * M) / (R * R).

Definition calculateEscapeVelocity (radiusEarth massEarth : T) : T :=
  if (radiusEarth <= $0) || (massEarth <= $0) then NaN
  else
    let R := radiusEarth * R_EARTH in
    let M := massEarth * M_EARTH in
    Math_sqrt (($2.0 * G * M) / R).

Definition calculateDensity (radiusEarth massEarth : T) : T :=
  if (radiusEarth <= $0) || (massEarth <= $0) then NaN
  else
    let R := radiusEarth * R_EARTH in
    let M := massEarth * M_EARTH in
    let volume := ($4.0 / $3.0) * Math_PI * R * R * R in
    M / volume / $1000.0.

(** The rules run one after the other on the same [warnings] array;
    none of them returns early. *)
Definition validatePhysicalPlausibility
    (params : PhysicsCalculationInput T) : list string :=
  let warnings : list string := [] in
  let warnings :=
    match radiusEarth params with
    | Some r =>
        let warnings := push_if (r < $0.5) "Planet radius very small (< 0.5 R⊕)" warnings in
        push_if (r > $10) "Planet radius very large (> 10 R⊕)" warnings
    | None => warnings
    end in
  let warnings :=
    match massEarth params with
    | Some m =>
        let warnings := push_if (m < $0.1) "Planet mass very small (< 0.1 M⊕)" warnings in
        push_if (m > $1000) "Planet mass very large (> 1000 M⊕)" warnings
    | None => warnings
    end in
  let warnings :=
    match radiusEarth params, massEarth params with
    | Some r, Some m =>
        let density := calculateDensity r m in
        let warnings :=
          push_if (density < $0.3) "Density unusually low (< 0.3 g/cm³ - unlikely)" warnings in
        push_if (density > $14) "Density unusually high (> 14 g/cm³ - iron core planet)" warnings
    | _, _ => warnings
    end in
  let warnings :=
    match orbitalPeriodDays params with
    | Some p =>
        let warnings := push_if (p < $0.1) "Orbital period very short (< 0.1 days)" warnings in
        push_if (p > $10000) "Orbital period very long (> 10000 days)" warnings
    | None => warnings
    end in
  let warnings :=
    match transitDepthPPM params with
    | Some d => push_if (d > $10000) "Transit depth unusually large (> 1%)" warnings
    | None => warnings
    end in
  warnings.

Definition estimateMassFromRadius (radiusEarth : T) : T :=
  if radiusEarth < $1.5 then Math_pow radiusEarth $1.8
  else if radiusEarth < $4 then Math_pow radiusEarth $2.5
  else Math_pow radiusEarth $3.5.

Definition calculate (input : PhysicsCalculationInput T)
    : PhysicsCalculationResult T :=
  let warnings := validatePhysicalPlausibility input in
  let starMass := starMassSolar input ?? $1.0 in
  let starRadius := starRadiusSolar input ?? $1.0 in
  let starTemp := starTempK input ?? $5778 in
  let starLuminosity := starLuminositySolar input in
  let starLuminosity :=
    match starLuminosity with
    | None => calculateStellarLuminosity starRadius starTemp
    | Some l => l
    end in
  let orbitalPeriod := orbitalPeriodDays input ?? $365 in
  let semiMajorAxis := semiMajorAxisAU input ?? $1.0 in
  let semiMajorAxis :=
    match orbitalPeriodDays input, semiMajorAxisAU input with
    | Some p, None => calculateSemiMajorAxis p starMass
    | _, _ => semiMajorAxis
    end in
  let orbitalPeriod :=
    match semiMajorAxisAU input, orbitalPeriodDays input with
    | Some a, None => calculateOrbitalPeriod a starMass
    | _, _ => orbitalPeriod
    end in
  let equilibriumTemp :=
    calculateEquilibriumTemperature starTemp starRadius semiMajorAxis None in
  let hz := calculateHabitableZone starLuminosity in
  let inHZ := (semiMajorAxis >= inner hz) && (semiMajorAxis <= outer hz) in
  let radiusEarth' := radiusEarth input ?? $1.0 in
  let massEarth' :=
    match massEarth input with
    | Some m => m
    | None => estimateMassFromRadius radiusEarth'
    end in
  let surfaceGravity := calculateSurfaceGravity radiusEarth' massEarth' in
  let escapeVelocity := calculateEscapeVelocity radiusEarth' massEarth' in
  let density := calculateDensity radiusEarth' massEarth' in
  let isPlausible := Nat.eqb (List.length warnings) 0 in
  {| r_orbitalPeriodDays := orbitalPeriod;
     r_semiMajorAxisAU := semiMajorAxis;
     r_equilibriumTemperatureK := equilibriumTemp;
     r_habitableZoneInnerAU := inner hz;
     r_habitableZoneOuterAU := outer hz;
     r_inHabitableZone := inHZ;
     r_surfaceGravityMS2 := surfaceGravity;
     r_escapeVelocityMS := escapeVelocity;
     r_densityGCM3 := density;
     r_starLuminositySolar := starLuminosity;
     r_starRadiusM := starRadius * R_SUN;
     r_isPhysicallyPlausible := isPlausible;
     r_warnings := warnings |}.

End Service.

End Physics.

(** ** Strings and arrays

    A JavaScript string is a sequence of UTF-16 code units.  The embedding
    uses Rocq strings, one character per code unit, and so covers texts in
    the Latin-1 range.  The warning texts of the physics service hold
    characters outside that range; they are kept as their UTF-8 bytes and
    only searched for ASCII words. *)

Module JsString.
Local Open Scope string_scope.

Definition code (c : ascii) : nat := nat_of_ascii c.

(** WhiteSpace and LineTerminator code units below 256: TAB, LF, VT, FF,
    CR, SP and NBSP. *)
Definition is_whitespace (c : ascii) : bool :=
  let n := code c in
  ((9 <=? n) && (n <=? 13))%nat || (n =? 32)%nat || (n =? 160)%nat.

Definition is_empty (s : string) : bool :=
  match s with
  | EmptyString => true
  | String _ _ => false
  end.

Fixpoint trimStart (s : string) : string :=
  match s with
  | EmptyString => EmptyString
  | String c s' => if is_whitespace c then trimStart s' else s
  end.

Fixpoint trimEnd (s : string) : string :=
  match s with
  | EmptyString => EmptyString
  | String c s' =>
      let r := trimEnd s' in
      if is_whitespace c && is_empty r then EmptyString else String c r
  end.

Definition trim (s : string) : string := trimEnd (trimStart s).

(** [s.split(sep)] for a separator of one character. *)
Fixpoint split (sep : ascii) (s : string) : list string :=
  match s with
  | EmptyString => [EmptyString]
  | String c s' =>
      if Ascii.eqb c sep then EmptyString :: split sep s'
      else match split sep s' with
           | h :: t => String c h :: t
           | [] => [String c EmptyString]
           end
  end.

(** [s.split(/\s+/)]; [in_run] tells that the previous character was
    white space. *)
Fixpoint split_spaces_from (in_run : bool) (s : string) : list string :=
  match s with
  | EmptyString => [EmptyString]
  | String c s' =>
      if is_whitespace c then
        if in_run then split_spaces_from true s'
        else EmptyString :: split_spaces_from true s'
      else match split_spaces_from false s' with
           | h :: t => String c h :: t
           | [] => [String c EmptyString]
           end
  end.

Definition split_spaces (s : string) : list string := split_spaces_from false s.

Definition lower_char (c : ascii) : ascii :=
  let n := code c in
  if ((65 <=? n) && (n <=? 90))%nat
     || ((192 <=? n) && (n <=? 222) && negb (n =? 215))%nat
  then ascii_of_nat (n + 32)
  else c.

Fixpoint toLowerCase (s : string) : string :=
  match s with
  | EmptyString => EmptyString
  | String c s' => String (lower_char c) (toLowerCase s')
  end.

Fixpoint startsWith (s p : string) : bool :=
  match p, s with
  | EmptyString, _ => true
  | String _ _, EmptyString => false
  | String a p', String b s' => Ascii.eqb a b && startsWith s' p'
  end.

Fixpoint includes (s p : string) : bool :=
  startsWith s p ||
  match s with
  | EmptyString => false
  | String _ s' => includes s' p
  end.

Fixpoint join (sep : string) (l : list string) : string :=
  match l with
  | [] => EmptyString
  | [s] => s
  | s :: t => s ++ sep ++ join sep t
  end.

(** [l.findIndex(p)], with -1 for no match. *)
Fixpoint findIndex_from {A : Type} (p : A -> bool) (i : Z) (l : list A) : Z :=
  match l with
  | [] => (-1)%Z
  | x :: t => if p x then i else findIndex_from p (i + 1)%Z t
  end.

Definition findIndex {A : Type} (p : A -> bool) (l : list A) : Z :=
  findIndex_from p 0%Z l.

(** [l[i]]; [None] is [undefined]. *)
Definition at_index {A : Type} (l : list A) (i : Z) : option A :=
  if (i <? 0)%Z then None else nth_error l (Z.to_nat i).

Definition length_Z {A : Type} (l : list A) : Z := Z.of_nat (List.length l).

End JsString.

(** ** [parseFloat] and [isNaN] *)

Module Global.
Import JsString.
Local Open Scope string_scope.

Definition digit_of (c : ascii) : option Z :=
  let n := code c in
  if ((48 <=? n) && (n <=? 57))%nat then Some (Z.of_nat (n - 48)) else None.

(** The longest prefix of decimal digits and what follows it. *)
Fixpoint take_digits (s : string) : list Z * string :=
  match s with
  | EmptyString => ([], EmptyString)
  | String c s' =>
      match digit_of c with
      | Some d => let '(ds, rest) := take_digits s' in (d :: ds, rest)
      | None => ([], s)
      end
  end.

Definition digits_value (ds : list Z) : Z :=
  fold_left (fun acc d => 10 * acc + d)%Z ds 0%Z.

(** ExponentPart, when one is there: [e] or [E], an optional sign and at
    least one digit. *)
Definition scan_exponent (s : string) : Z :=
  match s with
  | String c s' =>
      if Ascii.eqb c "e" || Ascii.eqb c "E" then
        let '(negative, s'') :=
          match s' with
          | String "-" t => (true, t)
          | String "+" t => (false, t)
          | _ => (false, s')
          end in
        match take_digits s'' with
        | ([], _) => 0%Z
        | (ds, _) => if negative then (- digits_value ds)%Z else digits_value ds
        end
      else 0%Z
  | EmptyString => 0%Z
  end.

Definition decimal (mantissa exponent : Z) : float :=
  Binary64.of_Q
    (if (0 <=? exponent)%Z then inject_Z (mantissa * 10 ^ exponent)
     else Qmake mantissa (Z.to_pos (10 ^ (- exponent)))).

(** The longest prefix that is a StrUnsignedDecimalLiteral, as a number. *)
Definition scan_unsigned (s : string) : option float :=
  if startsWith s "Infinity" then Some infinity
  else
    let '(int_part, r1) := take_digits s in
    match r1 with
    | String "." r2 =>
        let '(frac_part, r3) := take_digits r2 in
        match int_part, frac_part with
        | [], [] => None
        | _, _ =>
            Some (decimal (digits_value (int_part ++ frac_part))
                          (scan_exponent r3 - Z.of_nat (List.length frac_part)))
        end
    | _ =>
        match int_part with
        | [] => None
        | _ => Some (decimal (digits_value int_part) (scan_exponent r1))
        end
    end.

Definition parseFloat (s : string) : float :=
  let trimmed := trimStart s in
  let '(negative, body) :=
    match trimmed with
    | String "-" t => (true, t)
    | String "+" t => (false, t)
    | _ => (false, trimmed)
    end in
  match scan_unsigned body with
  | Some v => if negative then PrimFloat.opp v else v
  | None => nan
  end.

(** [parseFloat(values[i])]: [undefined] becomes the string "undefined",
    which is not a number. *)
Definition parseFloat_at (values : list string) (i : Z) : float :=
  match at_index values i with
  | Some s => parseFloat s
  | None => nan
  end.

Definition isNaN (x : float) : bool := Binary64.isNaN x.

End Global.

(** ** Effects: [Math.random] and exceptions *)

Module Runtime.

(** The values the next calls of [Math.random()] return, in order. *)
Definition RNG : Type := nat -> float.

Definition Math_random (g : RNG) : float * RNG := (g 0%nat, fun n => g (S n)).

(** How a call ends: with a value, or with a thrown error. *)
Inductive completion (A : Type) : Type :=
| Normal : A -> completion A
| Throw : string -> completion A.

Arguments Throw {A} _.

(** [c] and then [k] on its value; a thrown error passes through. *)
Definition and_then {A B : Type} (c : completion A) (k : A -> completion B)
    : completion B :=
  match c with
  | Normal a => k a
  | Throw e => Throw e
  end.

Notation "x <~ c ;; k" := (and_then c (fun x => k))
  (at level 61, c at next level, right associativity).

(** The engine the page runs on.  A call [f(...array)] passes every element
    of the array as an argument of its own, and an engine throws a
    RangeError when there are more arguments than it accepts.  ECMAScript
    sets no limit; the limit of an engine is its own and depends on its
    stack.  The engines the page runs on accept 65535 arguments or more
    (JavaScriptCore stops at 65536, V8 and SpiderMonkey later): the limit is
    65535 plus a [headroom] that is the engine's. *)
Class Engine : Type := { headroom : nat }.

Definition least_argument_limit : nat := Z.to_nat 65535.

Definition argument_limit {engine : Engine} : nat :=
  (least_argument_limit + headroom)%nat.

(** [f(...args)] *)
Definition spread {engine : Engine} {A : Type} (f : list float -> A)
    (args : list float) : completion A :=
  if (List.length args <=? argument_limit)%nat then Normal (f args)
  else Throw "RangeError: Maximum call stack size exceeded".

(** Number of rounds of [for (let i = 0; i < bound; i++)], for a finite
    [bound]. *)
Definition loop_count (bound : float) : nat :=
  match Binary64.ceilZ bound with
  | Some n => Z.to_nat n
  | None => 0%nat
  end.

(** [for (let i = 0; i < bound; i++) body(i)] on a state [s]. *)
Definition for_upto {S : Type} (bound : float) (body : nat -> S -> S) (s : S) : S :=
  fold_left (fun s i => body i s) (seq 0 (loop_count bound)) s.

End Runtime.

(** ** The light-curve parser *)

Module DataParser.
Import JsString Global Runtime.
Local Open Scope string_scope.
Local Open Scope list_scope.

Inductive Source : Type := kepler | k2 | tess | unknown.

Record Metadata : Type := {
  source : Source;
  targetId : option string;
  campaign : option string;
  sector : option string
}.

Record ParsedLightCurve : Type := {
  time : list float;
  flux : list float;
  error : option (list float);
  metadata : Metadata
}.

(** The three arrays a row loop fills. *)
Record Columns : Type := {
  c_time : list float;
  c_flux : list float;
  c_error : list float
}.

Definition no_columns : Columns := {| c_time := []; c_flux := []; c_error := [] |}.

(** [error.length > 0 ? error : undefined] *)
Definition error_or_undefined (error : list float) : option (list float) :=
  match error with
  | [] => None
  | _ :: _ => Some error
  end.

Definition is_comment_or_blank (line : string) : bool :=
  is_empty line || startsWith line "#" || startsWith line "%".

Definition detectDataSource (headers : list string) : Source :=
  let headerStr := toLowerCase (join " " headers) in
  if includes headerStr "kepler" || includes headerStr "kic" then kepler
  else if includes headerStr "k2" || includes headerStr "epic" then k2
  else if includes headerStr "tess" || includes headerStr "tic" then tess
  else unknown.

(** The capture of [/[\s]*(\d+)/] at the start of [s]. *)
Definition match_id_tail (s : string) : option string :=
  let after := trimStart s in
  let '(ds, rest) := take_digits after in
  match ds with
  | [] => None
  | _ => Some (substring 0 (List.length ds) after)
  end.

(** [content.match(/(?:kic|epic|tic)[\s]*(\d+)/i)]: the first position
    where the pattern matches, and its capture. *)
Fixpoint extractTargetId (content : string) : option string :=
  let try_prefix (p : string) : option string :=
    if startsWith (toLowerCase (substring 0 (String.length p) content)) p
    then match_id_tail (substring (String.length p)
                                  (String.length content - String.length p) content)
    else None in
  match try_prefix "kic", try_prefix "epic", try_prefix "tic" with
  | Some id, _, _ => Some id
  | _, Some id, _ => Some id
  | _, _, Some id => Some id
  | None, None, None =>
      match content with
      | EmptyString => None
      | String _ rest => extractTargetId rest
      end
  end.

Definition startTime : float := Binary64.of_Q 2454833.
Definition duration : float := Binary64.of_Q 1000.
Definition cadence : float := Binary64.of_Q 0.02.

Definition generateMockTimeSeries (_ : unit) : list float :=
  for_upto (duration / cadence)
    (fun i time => time ++ [(startTime + Binary64.of_nat i * cadence)%float]) [].

Definition generateMockFluxSeries (g : RNG) : list float * RNG :=
  let baseFlux := Binary64.of_Q 1.0 in
  let transitDepth := Binary64.of_Q 0.01 in
  let period := Binary64.of_Q 365 in
  for_upto (duration / cadence)
    (fun i '(flux, g) =>
       let time := (Binary64.of_nat i * cadence)%float in
       let phase := (Binary64.rem time period / period)%float in
       let transitPhase := Binary64.of_Q 0.1 in
       let inTransit := PrimFloat.ltb phase transitPhase in
       let fluxValue := baseFlux in
       let fluxValue := if inTransit then (fluxValue - transitDepth)%float else fluxValue in
       let '(u, g) := Math_random g in
       let fluxValue :=
         (fluxValue + (u - Binary64.of_Q 0.5) * Binary64.of_Q 0.001)%float in
       (flux ++ [fluxValue], g))
    ([], g).

Definition generateMockErrorSeries (g : RNG) : list float * RNG :=
  for_upto (duration / cadence)
    (fun _ '(error, g) =>
       let '(u, g) := Math_random g in
       (error ++ [(u * Binary64.of_Q 0.0005 + Binary64.of_Q 0.0001)%float], g))
    ([], g).

Definition generateMockLightCurve (g : RNG) : ParsedLightCurve * RNG :=
  let time := generateMockTimeSeries tt in
  let flux_g := generateMockFluxSeries g in
  let flux := fst flux_g in
  let error_g := generateMockErrorSeries (snd flux_g) in
  let error := fst error_g in
  let g := snd error_g in
  ({| time := time;
      flux := flux;
      error := Some error;
      metadata := {| source := kepler; targetId := Some "mock_target";
                     campaign := None; sector := None |} |}, g).

(** One round of the row loop of [parseCSVDataWithIndices] and of
    [parseKeplerKOIData] (the two bodies differ in their counters only). *)
Definition parse_row (timeIndex fluxIndex errorIndex : Z)
    (raw : string) (acc : Columns) : Columns :=
  let line := trim raw in
  if is_comment_or_blank line then acc
  else
    let values := map trim (split "," line) in
    if (length_Z values <=? Z.max timeIndex fluxIndex)%Z then acc
    else
      let timeVal := parseFloat_at values timeIndex in
      let fluxVal := parseFloat_at values fluxIndex in
      if negb (isNaN timeVal) && negb (isNaN fluxVal) then
        let time := c_time acc ++ [timeVal] in
        let flux := c_flux acc ++ [fluxVal] in
        let error :=
          if negb (errorIndex =? -1)%Z && (errorIndex <? length_Z values)%Z then
            let errorVal := parseFloat_at values errorIndex in
            c_error acc ++ [if isNaN errorVal then 0%float else errorVal]
          else c_error acc in
        {| c_time := time; c_flux := flux; c_error := error |}
      else acc.

(** [for (let i = 1; i < lines.length; i++)] *)
Definition parse_rows (timeIndex fluxIndex errorIndex : Z) (lines : list string)
    : Columns :=
  fold_left (fun acc raw => parse_row timeIndex fluxIndex errorIndex raw acc)
            (tl lines) no_columns.

Definition header_of (lines : list string) : list string :=
  map (fun h => toLowerCase (trim h)) (split "," (nth 0 lines EmptyString)).

(** The object that [parseCSVDataWithIndices] logs when rows were parsed:
    its property values are computed in order, and the four spread calls
    among them can throw. *)
Definition data_statistics {engine : Engine} (time flux : list float)
    : completion unit :=
  timeMax <~ spread Binary64.Math_max time ;;
  timeMin <~ spread Binary64.Math_min time ;;
  fluxMin <~ spread Binary64.Math_min flux ;;
  fluxMax <~ spread Binary64.Math_max flux ;;
  Normal tt.

Definition parseCSVDataWithIndices {engine : Engine} (csvContent : string)
    (timeIndex fluxIndex errorIndex : Z) (g : RNG)
    : completion ParsedLightCurve * RNG :=
  let lines := split "010" (trim csvContent) in
  let headers := header_of lines in
  let cols := parse_rows timeIndex fluxIndex errorIndex lines in
  let logged :=
    if (0 <? List.length (c_time cols))%nat
    then data_statistics (c_time cols) (c_flux cols)
    else Normal tt in
  match logged with
  | Throw e => (Throw e, g)
  | Normal _ =>
      if (List.length (c_time cols) =? 0)%nat then
        let mock := generateMockLightCurve g in
        (Normal (fst mock), snd mock)
      else
        (Normal {| time := c_time cols;
                   flux := c_flux cols;
                   error := error_or_undefined (c_error cols);
                   metadata := {| source := detectDataSource headers;
                                  targetId := extractTargetId csvContent;
                                  campaign := None; sector := None |} |}, g)
  end.

(** The three column searches of [parseKeplerKOIData]; each loop stops at
    the first header that matches. *)
Definition koi_time_header (header : string) : bool :=
  includes header "time" || includes header "bjd" || includes header "jd" ||
  includes header "date" || includes header "t_obs" || includes header "timestamp".

Definition koi_flux_header (header : string) : bool :=
  includes header "flux" || includes header "brightness" ||
  includes header "relative_flux" || includes header "normalized_flux".

Definition koi_error_header (header : string) : bool :=
  includes header "error" || includes header "err" ||
  includes header "sigma" || includes header "uncertainty".

Definition parseKeplerKOIData (csvContent : string) (headers : list string)
    : ParsedLightCurve :=
  let lines := split "010" (trim csvContent) in
  let timeIndex := findIndex koi_time_header headers in
  let fluxIndex := findIndex koi_flux_header headers in
  let errorIndex := findIndex koi_error_header headers in
  let timeIndex := if (timeIndex =? -1)%Z then 0%Z else timeIndex in
  let fluxIndex := if (fluxIndex =? -1)%Z then 1%Z else fluxIndex in
  let cols := parse_rows timeIndex fluxIndex errorIndex lines in
  {| time := c_time cols;
     flux := c_flux cols;
     error := error_or_undefined (c_error cols);
     metadata := {| source := kepler;
                    targetId := extractTargetId csvContent;
                    campaign := None; sector := None |} |}.

(** The three predicates [parseCSVData] gives to [headers.findIndex]. *)
Definition time_header (h : string) : bool :=
  includes h "time" || includes h "bjd" || includes h "jd" ||
  includes h "date" || includes h "t" || String.eqb h "x" || String.eqb h "0" ||
  includes h "t_obs" || includes h "timestamp".

Definition flux_header (h : string) : bool :=
  includes h "flux" || includes h "pdcsap_flux" || includes h "sap_flux" ||
  includes h "brightness" || includes h "magnitude" || String.eqb h "y" ||
  String.eqb h "1" || includes h "relative_flux" || includes h "normalized_flux".

Definition error_header (h : string) : bool :=
  includes h "error" || includes h "flux_err" || includes h "err" ||
  includes h "sigma" || includes h "uncertainty" || includes h "flux_error".

Definition parseCSVData {engine : Engine} (csvContent : string) (g : RNG)
    : completion ParsedLightCurve * RNG :=
  let lines := split "010" (trim csvContent) in
  let headers := header_of lines in
  let timeIndex := findIndex time_header headers in
  let fluxIndex := findIndex flux_header headers in
  let errorIndex := findIndex error_header headers in
  if (5 <? List.length headers)%nat then
    (Normal (parseKeplerKOIData csvContent headers), g)
  else if (timeIndex =? -1)%Z || (fluxIndex =? -1)%Z then
    if (2 <=? List.length headers)%nat then
      parseCSVDataWithIndices csvContent 0 1 2 g
    else
      (Throw ("Invalid CSV format: missing time or flux columns. Found headers: "
              ++ join ", " headers)%string, g)
  else
    parseCSVDataWithIndices csvContent timeIndex fluxIndex errorIndex g.

Definition parseFITSData (g : RNG) : ParsedLightCurve * RNG :=
  let time := generateMockTimeSeries tt in
  let flux_g := generateMockFluxSeries g in
  let flux := fst flux_g in
  let error_g := generateMockErrorSeries (snd flux_g) in
  let error := fst error_g in
  let g := snd error_g in
  ({| time := time;
      flux := flux;
      error := Some error;
      metadata := {| source := kepler; targetId := Some "mock_target";
                     campaign := None; sector := None |} |}, g).

(** One round of the loop of [parseTextData]. *)
Definition parse_text_line (line : string) (acc : Columns) : Columns :=
  let values := split_spaces (trim line) in
  if (2 <=? List.length values)%nat then
    let timeVal := parseFloat_at values 0 in
    let fluxVal := parseFloat_at values 1 in
    if negb (isNaN timeVal) && negb (isNaN fluxVal) then
      let time := c_time acc ++ [timeVal] in
      let flux := c_flux acc ++ [fluxVal] in
      let error :=
        if (3 <=? List.length values)%nat then
          let errorVal := parseFloat_at values 2 in
          c_error acc ++ [if isNaN errorVal then 0%float else errorVal]
        else c_error acc in
      {| c_time := time; c_flux := flux; c_error := error |}
    else acc
  else acc.

Definition parseTextData (textContent : string) : ParsedLightCurve :=
  let lines := split "010" (trim textContent) in
  let dataLines :=
    filter (fun line =>
              negb (is_empty (trim line)) && negb (startsWith line "#")
              && negb (startsWith line "%")) lines in
  let cols := fold_left (fun acc line => parse_text_line line acc) dataLines no_columns in
  {| time := c_time cols;
     flux := c_flux cols;
     error := error_or_undefined (c_error cols);
     metadata := {| source := unknown; targetId := None;
                    campaign := None; sector := None |} |}.

End DataParser.

(** ** The scorer front end *)

Module MLModel.
Import Runtime.
Local Open Scope string_scope.
Local Open Scope list_scope.
Local Open Scope float_scope.

Record ModelPrediction : Type := {
  probability : float;
  confidence : float;
  planetType : string;
  isHabitable : bool;
  hasAtmosphere : bool;
  hasWater : bool;
  temperature : float;
  radius : float;
  distanceFromStar : float;
  timePoints : option nat;
  fluxPoints : option nat;
  timeRange : option float;
  fluxMean : option float;
  fluxMin : option float;
  fluxMax : option float;
  fluxStdDev : option float
}.

Record LightCurveData : Type := {
  time : list float;
  flux : list float;
  error : option (list float)
}.

(** The loaded TensorFlow model, seen from [predict]: the feature vector
    goes in, and either the first entry of the prediction comes out or the
    library throws. *)
Definition TFModel : Type := list float -> completion float.

(** The fields of the service object and the state of [Math.random]. *)
Record State : Type := {
  isModelLoaded : bool;
  loadingPromise : bool;
  model : option TFModel;
  rng : RNG
}.

(** A method body: it may read and write the state, and it completes with
    a value or throws. *)
Definition M (A : Type) : Type := State -> completion A * State.

Definition ret {A : Type} (a : A) : M A := fun s => (Normal a, s).

Definition throw {A : Type} (e : string) : M A := fun s => (Throw e, s).

Definition bind {A B : Type} (c : M A) (k : A -> M B) : M B :=
  fun s =>
    match c s with
    | (Normal a, s') => k a s'
    | (Throw e, s') => (Throw e, s')
    end.

Notation "x <- c ;; k" := (bind c (fun x => k))
  (at level 61, c at next level, right associativity).

(** [try { body } catch (error) { handler }] *)
Definition try_catch {A : Type} (body : M A) (handler : string -> M A) : M A :=
  fun s =>
    match body s with
    | (Normal a, s') => (Normal a, s')
    | (Throw e, s') => handler e s'
    end.

Definition lift {A : Type} (c : completion A) : M A := fun s => (c, s).

Definition random : M float :=
  fun s =>
    let '(u, g) := Math_random (rng s) in
    (Normal u, {| isModelLoaded := isModelLoaded s; loadingPromise := loadingPromise s;
                  model := model s; rng := g |}).

Definition number_of (n : nat) : float := Binary64.of_nat n.

(** [l.reduce((a, b) => a + b, 0)] *)
Definition sum (l : list float) : float := fold_left PrimFloat.add l 0.

(** [l.reduce((a, b) => a + b)]: with no initial value an empty array
    throws a TypeError. *)
Definition sum_nonempty (l : list float) : completion float :=
  match l with
  | [] => Throw "TypeError: Reduce of empty array with no initial value"
  | x :: t => Normal (fold_left PrimFloat.add t x)
  end.

(** [l.map((val, i) => i > 0 ? f(val, l[i-1]) : 0)] *)
Fixpoint adjacent (f : float -> float -> float) (prev : float) (l : list float)
    : list float :=
  match l with
  | [] => []
  | x :: t => f x prev :: adjacent f x t
  end.

Definition with_previous (f : float -> float -> float) (l : list float) : list float :=
  match l with
  | [] => []
  | x :: t => 0 :: adjacent f x t
  end.

(** [l.sort((a, b) => a - b)] as a stable insertion sort.  When an entry
    is NaN the comparator is not consistent and ECMAScript leaves the
    order to the implementation. *)
Fixpoint insert_sorted (x : float) (l : list float) : list float :=
  match l with
  | [] => [x]
  | y :: t => if PrimFloat.ltb (y - x) 0 then y :: insert_sorted x t else x :: y :: t
  end.

Definition sort (l : list float) : list float := fold_right insert_sorted [] l.

Section Service.

Context {engine : Engine}.

Variable libm : Binary64.Libm.

(** The outcome of loading /combined_model.h5 with TensorFlow.js. *)
Variable tf_load : completion TFModel.

Definition Math_pow : float -> float -> float := Binary64.pow libm.

(** [Math.sqrt(l.map(x => Math.pow(x - mean, 2)).reduce((a, b) => a + b) / l.length)] *)
Definition deviation (l : list float) (mean : float) : completion float :=
  match sum_nonempty (map (fun x => Math_pow (x - mean) 2) l) with
  | Normal total => Normal (PrimFloat.sqrt (total / number_of (List.length l)))
  | Throw e => Throw e
  end.

Definition _loadModel : M unit :=
  try_catch
    (fun s =>
       match tf_load with
       | Normal loaded =>
           (Normal tt, {| isModelLoaded := true; loadingPromise := loadingPromise s;
                          model := Some loaded; rng := rng s |})
       | Throw e => (Throw e, s)
       end)
    (fun _ s =>
       (Normal tt, {| isModelLoaded := true; loadingPromise := loadingPromise s;
                      model := model s; rng := rng s |})).

Definition loadModel : M unit :=
  fun s =>
    if isModelLoaded s then (Normal tt, s)
    else if loadingPromise s then (Normal tt, s)
    else
      _loadModel {| isModelLoaded := isModelLoaded s; loadingPromise := true;
                    model := model s; rng := rng s |}.

Definition getFluxFeatures (flux : list float) : completion (list float) :=
  let fluxMean := sum flux / number_of (List.length flux) in
  fluxStd <~ deviation flux fluxMean ;;
  let fluxVariations := with_previous (fun val prev => PrimFloat.abs (val - prev)) flux in
  let avgVariation := sum fluxVariations / number_of (List.length fluxVariations) in
  maxVariation <~ spread Binary64.Math_max fluxVariations ;;
  Normal
    [fluxMean; fluxStd; avgVariation; maxVariation;
     number_of (List.length (filter (fun v => PrimFloat.ltb fluxStd v) fluxVariations))
     / number_of (List.length flux)].

Definition getTimeFeatures (time : list float) : completion (list float) :=
  let timeDiffs := with_previous (fun val prev => val - prev) time in
  let avgTimeStep := sum timeDiffs / number_of (List.length timeDiffs) in
  timeStd <~ deviation timeDiffs avgTimeStep ;;
  maxDiff <~ spread Binary64.Math_max timeDiffs ;;
  minDiff <~ spread Binary64.Math_min timeDiffs ;;
  Normal [avgTimeStep; timeStd; maxDiff; minDiff; number_of (List.length time)].

Definition getErrorFeatures (error : list float) : completion (list float) :=
  if (List.length error =? 0)%nat then Normal [0; 0; 0; 0; 0]
  else
    let errorMean := sum error / number_of (List.length error) in
    errorStd <~ deviation error errorMean ;;
    maxError <~ spread Binary64.Math_max error ;;
    minError <~ spread Binary64.Math_min error ;;
    Normal [errorMean; errorStd; maxError; minError; number_of (List.length error)].

Definition padOrTruncate (arr : list float) (targetLength : nat) : list float :=
  if (targetLength <=? List.length arr)%nat then firstn targetLength arr
  else arr ++ repeat 0 (targetLength - List.length arr).

Definition preprocessLightCurve (data : LightCurveData) : completion (list float) :=
  let fluxMean := sum (flux data) / number_of (List.length (flux data)) in
  fluxStd <~ deviation (flux data) fluxMean ;;
  fluxMin <~ spread Binary64.Math_min (flux data) ;;
  fluxMax <~ spread Binary64.Math_max (flux data) ;;
  timeMax <~ spread Binary64.Math_max (time data) ;;
  timeMin <~ spread Binary64.Math_min (time data) ;;
  let timeRange := timeMax - timeMin in
  maxTime <~ spread Binary64.Math_max (time data) ;;
  minTime <~ spread Binary64.Math_min (time data) ;;
  fluxFeatures <~ getFluxFeatures (flux data) ;;
  timeFeatures <~ getTimeFeatures (time data) ;;
  errorFeatures <~ getErrorFeatures (match error data with
                                     | Some e => e
                                     | None => []
                                     end) ;;
  let features :=
    [fluxMean; fluxStd; fluxMin; fluxMax; timeRange;
     number_of (List.length (time data));
     (fluxMax - fluxMin) / PrimFloat.abs fluxMean;
     fluxStd / PrimFloat.abs fluxMean;
     timeRange / number_of (List.length (time data));
     maxTime;
     minTime]
    ++ fluxFeatures ++ timeFeatures ++ errorFeatures in
  Normal (padOrTruncate features 50).

Definition analyzeFluxVariations (flux : list float) : float :=
  let mean := sum flux / number_of (List.length flux) in
  let variance :=
    fold_left (fun sum val => sum + Math_pow (val - mean) 2) flux 0
    / number_of (List.length flux) in
  let stdDev := PrimFloat.sqrt variance in
  Binary64.min2 (stdDev * 10) 1.

Definition analyzePeriodicity (time flux : list float) : completion float :=
  timeMax <~ spread Binary64.Math_max time ;;
  timeMin <~ spread Binary64.Math_min time ;;
  let timeSpan := timeMax - timeMin in
  fluxMax <~ spread Binary64.Math_max flux ;;
  fluxMin <~ spread Binary64.Math_min flux ;;
  let fluxRange := fluxMax - fluxMin in
  fluxMax' <~ spread Binary64.Math_max flux ;;
  fluxMin' <~ spread Binary64.Math_min flux ;;
  let normalizedVariation := fluxRange / (fluxMax' + fluxMin') in
  Normal (Binary64.min2 (normalizedVariation * 2) 1).

Definition detectTimeGaps (time : list float) : float :=
  if (List.length time <? 2)%nat then 1
  else
    let intervals := tl (with_previous (fun val prev => val - prev) time) in
    let intervals := sort intervals in
    let medianInterval := nth (Nat.div (List.length intervals) 2) intervals nan in
    let largeGaps :=
      List.length (filter (fun interval => PrimFloat.ltb (medianInterval * 3) interval)
                          intervals) in
    number_of largeGaps / number_of (List.length intervals).

Definition analyzeDataQuality (data : LightCurveData) : float :=
  let completeness := number_of (List.length (flux data)) / 1000 in
  let timeGaps := detectTimeGaps (time data) in
  let gapQuality := Binary64.max2 0 (1 - timeGaps) in
  let errorQuality :=
    match error data with
    | Some error =>
        Binary64.max2 0 (1 - (sum error / number_of (List.length error)) * 100)
    | None => 1
    end in
  (completeness + gapQuality + errorQuality) / 3.

Definition simulateModelPrediction (features : list float) (data : LightCurveData)
    : M float :=
  let fluxVariations := analyzeFluxVariations (flux data) in
  periodicity <- lift (analyzePeriodicity (time data) (flux data)) ;;
  let dataQuality := analyzeDataQuality data in
  let datasetSize := number_of (List.length (time data)) in
  timeMax <- lift (spread Binary64.Math_max (time data)) ;;
  timeMin <- lift (spread Binary64.Math_min (time data)) ;;
  let timeSpan := timeMax - timeMin in
  let fluxMean := sum (flux data) / number_of (List.length (flux data)) in
  fluxStdDev <- lift (deviation (flux data) fluxMean) ;;
  let sizeBonus := Binary64.min2 (datasetSize / 10000) 0.2 in
  let timeBonus := Binary64.min2 (timeSpan / 1000) 0.1 in
  let baseProbability :=
    (fluxVariations * 0.4 + periodicity * 0.3 + dataQuality * 0.3) + sizeBonus + timeBonus in
  u <- random ;;
  let noise := (u - 0.5) * 0.1 in
  let finalProbability := Binary64.max2 0 (Binary64.min2 1 (baseProbability + noise)) in
  ret finalProbability.

Definition classifyPlanetType (probability : float) (data : LightCurveData) : string :=
  if PrimFloat.ltb 0.9 probability then "Super Earth"
  else if PrimFloat.ltb 0.7 probability then "Terrestrial"
  else if PrimFloat.ltb 0.5 probability then "Mini-Neptune"
  else "Gas Giant".

Definition estimateTemperature (probability : float) (data : LightCurveData) : float :=
  let baseTemp := 200 + (probability * 200) in
  Binary64.Math_round baseTemp.

Definition estimateRadius (probability : float) (data : LightCurveData) : float :=
  0.5 + (probability * 2.5).

Definition estimateDistance (probability : float) (data : LightCurveData) : float :=
  0.02 + (probability * 0.5).

Definition getMockPrediction (data : LightCurveData) : M ModelPrediction :=
  u <- random ;;
  let probability := 0.7 + u * 0.25 in
  ret {| probability := probability;
         confidence := probability * 0.9;
         planetType := classifyPlanetType probability data;
         isHabitable := PrimFloat.ltb 0.7 probability;
         hasAtmosphere := PrimFloat.ltb 0.6 probability;
         hasWater := PrimFloat.ltb 0.8 probability;
         temperature := estimateTemperature probability data;
         radius := estimateRadius probability data;
         distanceFromStar := estimateDistance probability data;
         timePoints := None; fluxPoints := None; timeRange := None;
         fluxMean := None; fluxMin := None; fluxMax := None; fluxStdDev := None |}.

(** The body of the [try] block of [predict]. *)
Definition predict_body (data : LightCurveData) : M ModelPrediction :=
  _ <- loadModel ;;
  features <- lift (preprocessLightCurve data) ;;
  probability <-
    (fun s =>
       match model s with
       | Some scorer => lift (scorer features) s
       | None => simulateModelPrediction features data s
       end) ;;
  let confidence := Binary64.min2 (probability * 1.2) 1.0 in
  let timePoints := List.length (time data) in
  let fluxPoints := List.length (flux data) in
  timeMax <- lift (spread Binary64.Math_max (time data)) ;;
  timeMin <- lift (spread Binary64.Math_min (time data)) ;;
  let timeRange := timeMax - timeMin in
  let fluxMean := sum (flux data) / number_of (List.length (flux data)) in
  fluxMin <- lift (spread Binary64.Math_min (flux data)) ;;
  fluxMax <- lift (spread Binary64.Math_max (flux data)) ;;
  fluxStdDev <- lift (deviation (flux data) fluxMean) ;;
  ret {| probability := probability;
         confidence := confidence;
         planetType := classifyPlanetType probability data;
         isHabitable := PrimFloat.ltb 0.7 probability;
         hasAtmosphere := PrimFloat.ltb 0.6 probability;
         hasWater := PrimFloat.ltb 0.8 probability;
         temperature := estimateTemperature probability data;
         radius := estimateRadius probability data;
         distanceFromStar := estimateDistance probability data;
         timePoints := Some timePoints;
         fluxPoints := Some fluxPoints;
         timeRange := Some timeRange;
         fluxMean := Some fluxMean;
         fluxMin := Some fluxMin;
         fluxMax := Some fluxMax;
         fluxStdDev := Some fluxStdDev |}.

Definition predict (data : LightCurveData) : M ModelPrediction :=
  try_catch (predict_body data) (fun _ => getMockPrediction data).

Definition isLoaded : M bool := fun s => (Normal (isModelLoaded s), s).

Definition dispose : M unit :=
  fun s =>
    (Normal tt, {| isModelLoaded := false; loadingPromise := false;
                   model := model s; rng := rng s |}).

End Service.

End MLModel.

(** ** Validation of a parsed light curve *)

Module DataValidation.
Import JsString Global Runtime DataParser.
Local Open Scope float_scope.

(** [validateLightCurveData].  The arrays of a [ParsedLightCurve] are always
    there, so the tests [!data.time] and [!data.flux] are false. *)
Definition validateLightCurveData {engine : Engine} (data : ParsedLightCurve)
    : completion bool :=
  if (List.length (time data) =? 0)%nat || (List.length (flux data) =? 0)%nat
  then Normal false
  else if negb (List.length (time data) =? List.length (flux data))%nat then Normal false
  else
    timeMax <~ spread Binary64.Math_max (time data) ;;
    timeMin <~ spread Binary64.Math_min (time data) ;;
    let timeRange := timeMax - timeMin in
    let fluxMean :=
      fold_left PrimFloat.add (flux data) 0 / Binary64.of_nat (List.length (flux data)) in
    fluxMin <~ spread Binary64.Math_min (flux data) ;;
    fluxMax <~ spread Binary64.Math_max (flux data) ;;
    Normal
      (if (0 <? List.length (time data))%nat
          && (PrimFloat.ltb 0 timeRange && negb (isNaN fluxMean)
              && negb (PrimFloat.eqb fluxMean 0)
              && negb (isNaN fluxMin) && negb (isNaN fluxMax))
       then true
       else if (1000 <? List.length (time data))%nat
               && (PrimFloat.ltb 0 timeRange && negb (PrimFloat.eqb fluxMean 0)
                   && negb (isNaN fluxMean))
       then true
       else if PrimFloat.ltb timeRange 0.00001 || PrimFloat.ltb 10000000 timeRange
       then false
       else if PrimFloat.ltb fluxMean 0.0001 || PrimFloat.ltb 10000 fluxMean then false
       else
         let fluxVariation := (fluxMax - fluxMin) / PrimFloat.abs fluxMean in
         if PrimFloat.ltb 1000 fluxVariation then false
         else true).

End DataValidation.

(** ** The upload dispatch of the analysis page *)

Module FileUpload.
Import JsString Global Runtime DataParser.
Local Open Scope string_scope.

(** [s.endsWith(suffix)] *)
Definition endsWith (s suffix : string) : bool :=
  (String.length suffix <=? String.length s)%nat
  && String.eqb (substring (String.length s - String.length suffix)
                           (String.length suffix) s) suffix.

(** What [readFileContent] hands over: the text of the file, or its bytes
    for a .fits file. *)
Inductive FileContent : Type :=
| Text : string -> FileContent
| Bytes : list Byte.byte -> FileContent.

(** [parseFileData].  [content as string] does nothing at run time: a
    text parser that is handed bytes fails on its first call,
    [csvContent.trim()]. *)
Definition parseFileData {engine : Engine} (name : string) (content : FileContent)
    (g : RNG) : completion ParsedLightCurve * RNG :=
  let fileName := toLowerCase name in
  if endsWith fileName ".csv" then
    match content with
    | Text s => parseCSVData s g
    | Bytes _ => (Throw "TypeError: csvContent.trim is not a function", g)
    end
  else if endsWith fileName ".fits" then
    let '(lc, g) := parseFITSData g in (Normal lc, g)
  else
    match content with
    | Text s => (Normal (parseTextData s), g)
    | Bytes _ => (Throw "TypeError: textContent.trim is not a function", g)
    end.

End FileUpload.

(** ** Reading a prediction for display *)

Module PredictionUtils.
Local Open Scope float_scope.

Record PhysicsValidation : Type := {
  equilibriumTemp : option float;
  semiMajorAxisAU : option float;
  surfaceGravity : option float;
  escapeVelocity : option float;
  escapVelocity : option float;
  density : option float;
  habitableZoneInner : option float;
  habitableZoneOuter : option float;
  inHabitableZone : option bool;
  isPhysicallyPlausible_flag : option bool;
  warnings : option (list string)
}.

(** [PredictionLike]; an absent field is [None], and so is a
    [physicsValidation] that is [null]. *)
Record PredictionLike : Type := {
  probability : option float;
  confidence : option float;
  temperature : option float;
  radius : option float;
  distanceFromStar : option float;
  physicsValidation : option PhysicsValidation;
  modelVersion : option string
}.

(** [typeof x === 'number' ? x : d] *)
Definition number_or (x : option float) (d : float) : float :=
  match x with
  | Some v => v
  | None => d
  end.

Definition getProbability (p : PredictionLike) : float :=
  match probability p with
  | Some v => v
  | None => number_or (confidence p) 0
  end.

Definition getConfidence (p : PredictionLike) : float :=
  match confidence p with
  | Some v => v
  | None => number_or (probability p) 0
  end.

Definition getTemperature (p : PredictionLike) : float :=
  match physicsValidation p with
  | Some phys =>
      match equilibriumTemp phys with
      | Some t => t
      | None => number_or (temperature p) 0
      end
  | None => number_or (temperature p) 0
  end.

Definition getRadius (p : PredictionLike) : float := number_or (radius p) 0.

Definition getDistance (p : PredictionLike) : float :=
  match physicsValidation p with
  | Some phys =>
      match semiMajorAxisAU phys with
      | Some a => a
      | None =>
          match habitableZoneInner phys, habitableZoneOuter phys with
          | Some hzInner, Some hzOuter => (hzInner + hzOuter) / 2
          | _, _ => number_or (distanceFromStar p) 0
          end
      end
  | None => number_or (distanceFromStar p) 0
  end.

Definition isHabitable (p : PredictionLike) : bool :=
  match physicsValidation p with
  | Some phys =>
      match inHabitableZone phys with
      | Some b => b
      | None => false
      end
  | None => false
  end.

Definition isPhysicallyPlausible (p : PredictionLike) : bool :=
  match physicsValidation p with
  | None => false
  | Some phys =>
      match isPhysicallyPlausible_flag phys with
      | Some b => b
      | None =>
          let hasKey :=
            match equilibriumTemp phys with
            | Some _ =>
                match surfaceGravity phys, density phys with
                | None, None => false
                | _, _ => true
                end
            | None => false
            end in
          let noWarnings :=
            match warnings phys with
            | None => true
            | Some w => (List.length w =? 0)%nat
            end in
          hasKey && noWarnings
      end
  end.

(** A [ModelPrediction] of the scorer, as the display components hand it to
    these functions: its nine fields are there, and it has no
    [physicsValidation] and no [modelVersion]. *)
Definition of_model_prediction (m : MLModel.ModelPrediction) : PredictionLike :=
  {| probability := Some (MLModel.probability m);
     confidence := Some (MLModel.confidence m);
     temperature := Some (MLModel.temperature m);
     radius := Some (MLModel.radius m);
     distanceFromStar := Some (MLModel.distanceFromStar m);
     physicsValidation := None;
     modelVersion := None |}.

End PredictionUtils.

(** ** The catalogue service: CSV lines and validation by the scorer *)

Module ExoplanetService.

(** The three estimates of the catalogue rows, over any number interface. *)
Section Estimates.

Context {T : Type} {N : JSNumber T}.
Local Open Scope js_scope.



Definition isInHabitableZone (semiMajorAxisAU : T) : bool :=
  (semiMajorAxisAU > $0.95) && (semiMajorAxisAU < $1.67).

End Estimates.

Import JsString Runtime MLModel.
Local Open Scope string_scope.
Local Open Scope list_scope.

Inductive DataSource : Type := nasa | sheets | csv | user_input.

Record ExoplanetData : Type := {
  id : string;
  name : string;
  orbitalPeriodDays : float;
  semiMajorAxisAU : float;
  radiusEarth : float;
  massEarth : option float;
  starTempK : float;
  starRadiusSolar : float;
  starMassSolar : option float;
  equilibriumTempK : float;
  surfaceGravity : float;
  inHabitableZone : bool;
  mlPrediction : option ModelPrediction;
  dataSource : DataSource;
  confidence : float
}.

(** The loop of [parseCSVLine]: [result], [current] and [inQuotes] are its
    three variables. *)
Fixpoint parseCSVLine_loop (line : string) (result : list string) (current : string)
    (inQuotes : bool) : list string :=
  match line with
  | EmptyString => result ++ [trim current]
  | String char rest =>
      if Ascii.eqb char "034" then parseCSVLine_loop rest result current (negb inQuotes)
      else if Ascii.eqb char "," && negb inQuotes then
        parseCSVLine_loop rest (result ++ [trim current]) EmptyString inQuotes
      else parseCSVLine_loop rest result (current ++ String char EmptyString) inQuotes
  end.

Definition parseCSVLine (line : string) : list string :=
  parseCSVLine_loop line [] EmptyString false.

Local Open Scope float_scope.

Section Validation.

Context {engine : Engine}.

Variable libm : Binary64.Libm.
Variable tf_load : completion TFModel.

(** [Math.exp] away from the arguments for which ECMAScript prescribes the
    result. *)
Variable exp_approx : float -> float.

Definition Math_exp (x : float) : float :=
  if Binary64.isNaN x then nan
  else if Binary64.is_zero x then 1
  else if PrimFloat.is_infinity x then (if Binary64.is_negative x then 0 else infinity)
  else exp_approx x.

(** [time.map(t => ...)]: one call of [Math.random] for each sample, in
    order. *)
Fixpoint synthetic_flux (period : float) (time : list float) : M (list float) :=
  match time with
  | [] => ret []
  | t :: rest =>
      let phase := Binary64.rem t period / period in
      let distFromTransit :=
        Binary64.min2 (PrimFloat.abs (phase - 0.5)) (PrimFloat.abs (phase - 1.5)) in
      let transitDepth := 0.001 in
      let transitWidth := 0.1 in
      let base := 1.0 in
      let transit :=
        (- transitDepth)
        * Math_exp (- (Binary64.pow libm (distFromTransit / transitWidth) 2)) in
      u <- random ;;
      let noise := (u - 0.5) * 0.0003 in
      others <- synthetic_flux period rest ;;
      ret ((base + transit + noise) :: others)
  end.

Definition generateSyntheticLightCurve (exoplanet : ExoplanetData) : M LightCurveData :=
  let observations := 2000%nat in
  let period := orbitalPeriodDays exoplanet in
  let time :=
    map (fun i => (number_of i / number_of observations)
                  * Binary64.max2 (period * 10) 365)
        (seq 0 observations) in
  flux <- synthetic_flux period time ;;
  let error := map (fun _ => 0.0005) flux in
  ret {| time := time; flux := flux; error := Some error |}.

(** [validateWithML].  A [ModelPrediction] has no [physicsValidation], so
    the two optional chains yield [undefined] and the planet's own values
    are kept. *)
Definition validateWithML (exoplanet : ExoplanetData) : M ExoplanetData :=
  try_catch
    (syntheticData <- generateSyntheticLightCurve exoplanet ;;
     prediction <- predict libm tf_load syntheticData ;;
     ret {| id := id exoplanet;
            name := name exoplanet;
            orbitalPeriodDays := orbitalPeriodDays exoplanet;
            semiMajorAxisAU := semiMajorAxisAU exoplanet;
            radiusEarth := radiusEarth exoplanet;
            massEarth := massEarth exoplanet;
            starTempK := starTempK exoplanet;
            starRadiusSolar := starRadiusSolar exoplanet;
            starMassSolar := starMassSolar exoplanet;
            equilibriumTempK := MLModel.temperature prediction;
            surfaceGravity := surfaceGravity exoplanet;
            inHabitableZone := inHabitableZone exoplanet;
            mlPrediction := Some prediction;
            dataSource := dataSource exoplanet;
            confidence :=
              Binary64.max2 (confidence exoplanet) (MLModel.confidence prediction) |})
    (fun _ => ret exoplanet).

End Validation.

End ExoplanetService.

(** ** Vocabulary of the statements *)

Module PhysicsSpec.
Import Physics.

(** The object [{}]. *)
Definition emptyInput {T : Type} : PhysicsCalculationInput T := {|
  orbitalPeriodDays := None;
  semiMajorAxisAU := None;
  radiusEarth := None;
  massEarth := None;
  starTempK := None;
  starRadiusSolar := None;
  starMassSolar := None;
  starLuminositySolar := None;
  transitDepthPPM := None;
  transitDurationHours := None
|}.

Section Updates.
Context {T : Type}.

Definition with_radiusEarth (v : option T) (i : PhysicsCalculationInput T) :=
  {| orbitalPeriodDays := orbitalPeriodDays i; semiMajorAxisAU := semiMajorAxisAU i;
     radiusEarth := v; massEarth := massEarth i; starTempK := starTempK i;
     starRadiusSolar := starRadiusSolar i; starMassSolar := starMassSolar i;
     starLuminositySolar := starLuminositySolar i;
     transitDepthPPM := transitDepthPPM i;
     transitDurationHours := transitDurationHours i |}.

Definition with_massEarth (v : option T) (i : PhysicsCalculationInput T) :=
  {| orbitalPeriodDays := orbitalPeriodDays i; semiMajorAxisAU := semiMajorAxisAU i;
     radiusEarth := radiusEarth i; massEarth := v; starTempK := starTempK i;
     starRadiusSolar := starRadiusSolar i; starMassSolar := starMassSolar i;
     starLuminositySolar := starLuminositySolar i;
     transitDepthPPM := transitDepthPPM i;
     transitDurationHours := transitDurationHours i |}.




End Updates.

Section Rules.
Context {T : Type} {N : JSNumber T}.
Local Open Scope js_scope.

(** A rule on one optional field: it applies when the field is there. *)
Definition on_field (o : option T) (test : T -> bool) : bool :=
  match o with
  | Some v => test v
  | None => false
  end.

(** The rule set of the validator as a table: for each rule, whether
    it fires on [params], and its warning. *)
Definition plausibility_rules (params : PhysicsCalculationInput T)
    : list (bool * string) :=
  let density_rule (test : T -> bool) : bool :=
    match radiusEarth params, massEarth params with
    | Some r, Some m => test (calculateDensity r m)
    | _, _ => false
    end in
  [ (on_field (radiusEarth params) (fun r => r < $0.5),
     "Planet radius very small (< 0.5 R⊕)"%string);
    (on_field (radiusEarth params) (fun r => r > $10),
     "Planet radius very large (> 10 R⊕)"%string);
    (on_field (massEarth params) (fun m => m < $0.1),
     "Planet mass very small (< 0.1 M⊕)"%string);
    (on_field (massEarth params) (fun m => m > $1000),
     "Planet mass very large (> 1000 M⊕)"%string);
    (density_rule (fun d => d < $0.3),
     "Density unusually low (< 0.3 g/cm³ - unlikely)"%string);
    (density_rule (fun d => d > $14),
     "Density unusually high (> 14 g/cm³ - iron core planet)"%string);
    (on_field (orbitalPeriodDays params) (fun p => p < $0.1),
     "Orbital period very short (< 0.1 days)"%string);
    (on_field (orbitalPeriodDays params) (fun p => p > $10000),
     "Orbital period very long (> 10000 days)"%string);
    (on_field (transitDepthPPM params) (fun d => d > $10000),
     "Transit depth unusually large (> 1%)"%string) ].

End Rules.




End PhysicsSpec.


Module ParserSpec.
Import JsString Global.
Local Open Scope string_scope.

(** Every character of [s] satisfies [p]. *)
Fixpoint all_chars (p : ascii -> bool) (s : string) : bool :=
  match s with
  | EmptyString => true
  | String c s' => p c && all_chars p s'
  end.

Definition no_space (s : string) : bool :=
  all_chars (fun c => negb (is_whitespace c)) s.

(** A cell with no white space and no comma in it. *)
Definition plain (s : string) : bool :=
  all_chars (fun c => negb (is_whitespace c) && negb (Ascii.eqb c ",")) s.

(** A cell that holds a number: a plain string that [parseFloat] reads as
    a number. *)
Definition numeric_cell (s : string) : Prop :=
  plain s = true /\ isNaN (parseFloat s) = false.

(** A row of [n] numeric cells. *)
Definition numeric_row (n : nat) (row : list string) : Prop :=
  List.length row = n /\ Forall numeric_cell row.

Definition newline : string := String "010" EmptyString.

(** A table written as CSV text: cells joined by commas, lines by line
    feeds. *)
Definition csv_line (cells : list string) : string := join "," cells.

Definition csv_text (header : list string) (rows : list (list string)) : string :=
  join newline (map csv_line (header :: rows)).

Definition kepler_header : list string := ["KIC"; "TIME"; "PDCSAP_FLUX"; "FLUX_ERR"].

(** The number in column [i] of a row. *)
Definition cell_value (i : nat) (row : list string) : float :=
  parseFloat (nth i row EmptyString).

(** A table of 100 rows under the Kepler header, all different. *)
Definition sample_rows : list (list string) :=
  let digits := ["0"; "1"; "2"; "3"; "4"; "5"; "6"; "7"; "8"; "9"] in
  flat_map (fun a =>
    map (fun b => ["10797460"; "131.5" ++ a ++ b; "0.99" ++ b ++ a; "0.0002"]) digits)
    digits.

(** A source of random numbers that always answers 0.5. *)
Definition constant_rng : Runtime.RNG := fun _ => 0.5%float.

(** An engine with no headroom: it accepts 65535 arguments and no more. *)
Definition smallest_engine : Runtime.Engine := {| Runtime.headroom := 0 |}.

(** Time and flux have one length, and there is at most one error for a
    sample. *)
Definition aligned (acc : DataParser.Columns) : Prop :=
  List.length (DataParser.c_time acc) = List.length (DataParser.c_flux acc) /\
  (List.length (DataParser.c_error acc) <= List.length (DataParser.c_time acc))%nat.

End ParserSpec.

Module ScorerSpec.
Import Runtime MLModel.
Local Open Scope string_scope.
Local Open Scope float_scope.

(** A light curve of two samples. *)
Definition two_samples : LightCurveData :=
  {| time := [5; 5]; flux := [1; 1]; error := None |}.


(** A service whose model is loaded and whose scorer does [respond]. *)
Definition service_with (respond : completion float) : State :=
  {| isModelLoaded := true; loadingPromise := true;
     model := Some (fun _ => respond); rng := ParserSpec.constant_rng |}.

(** Stand-ins for the implementation-approximated functions, for closed
    examples that reach neither of them. *)
Definition unused_libm : Binary64.Libm :=
  {| Binary64.cbrt_approx := fun _ => nan; Binary64.pow_approx := fun _ _ => nan |}.

End ScorerSpec.

(** ** Vocabulary of the further statements *)

Module ResultSpec.
Import DataParser.

(** The length invariant of a light curve, as far as every parser path
    keeps it: time and flux have one length, and an error array is not
    longer than they are. *)
Definition well_formed (lc : ParsedLightCurve) : Prop :=
  List.length (time lc) = List.length (flux lc) /\
  match error lc with
  | Some e => (List.length e <= List.length (time lc))%nat
  | None => True
  end.

(** A string of decimal digits. *)
Definition is_digit (c : ascii) : bool :=
  match Global.digit_of c with
  | Some _ => true
  | None => false
  end.

Definition digits_only (s : string) : bool := ParserSpec.all_chars is_digit s.

(** The first character of [s], if any, is not a digit. *)
Definition no_leading_digit (s : string) : bool :=
  match s with
  | EmptyString => true
  | String c _ => negb (is_digit c)
  end.

(** A raw line that holds nothing or a comment: blank, or # or % as its
    first character that is not white space. *)
Definition comment_or_blank_line (raw : string) : bool :=
  match JsString.trim raw with
  | EmptyString => true
  | String c _ => Ascii.eqb c "#" || Ascii.eqb c "%"
  end.

(** The columns of a table of at most five columns: those whose headers
    are found, or columns 0, 1 and 2 when no time or no flux header is
    found; and the rows that parse for them. *)
Definition chosen_rows (lines : list string) : Columns :=
  let headers := header_of lines in
  let ti := JsString.findIndex time_header headers in
  let fi := JsString.findIndex flux_header headers in
  let ei := JsString.findIndex error_header headers in
  if (ti =? -1)%Z || (fi =? -1)%Z then parse_rows 0 1 2 lines
  else parse_rows ti fi ei lines.



(** A light curve with no metadata to speak of. *)
Definition bare_curve (time flux : list float) : ParsedLightCurve :=
  {| time := time; flux := flux; error := None;
     metadata := {| source := unknown; targetId := None;
                    campaign := None; sector := None |} |}.

End ResultSpec.


Module LawSpec.
Local Open Scope R_scope.


End LawSpec.

Module CsvSpec.
Local Open Scope string_scope.

(** A cell between double quotes, as a spreadsheet exports it. *)
Definition quoted (cell : string) : string :=
  String "034" (cell ++ String "034" EmptyString).

Definition no_quote (s : string) : bool :=
  ParserSpec.all_chars (fun c => negb (Ascii.eqb c "034")) s.

End CsvSpec.

Module TextSpec.
Import JsString ParserSpec.
Local Open Scope string_scope.

(** A table written as plain text: cells separated by one space, lines by
    line feeds. *)
Definition text_line (cells : list string) : string := join " " cells.

Definition text_table (rows : list (list string)) : string :=
  join newline (map text_line rows).

(** The first character of [s] is there and is not white space. *)
Definition no_leading_space (s : string) : bool :=
  match s with
  | EmptyString => false
  | String c _ => negb (is_whitespace c)
  end.

(** A row of at least three numeric cells. *)
Definition numeric_text_row (row : list string) : Prop :=
  (3 <= List.length row)%nat /\ Forall numeric_cell row.

End TextSpec.
(** * Properties *)

(** ** Decimal literals *)

Module Binary64Facts.
Import Binary64.

(** [of_Q] agrees with Rocq's own reading of float literals on the
    constants of the sources. *)
Lemma of_Q_constants :
  of_Q 6.67430e-11 = 6.67430e-11%float /\
  of_Q 5.670374419e-8 = 5.670374419e-8%float /\
  of_Q 1.98847e30 = 1.98847e30%float /\
  of_Q 6.957e8 = 6.957e8%float /\
  of_Q 3.828e26 = 3.828e26%float /\
  of_Q 1.495978707e11 = 1.495978707e11%float /\
  of_Q 5.972e24 = 5.972e24%float /\
  of_Q 6.371e6 = 6.371e6%float /\
  of_Q 3.141592653589793 = 3.141592653589793%float /\
  of_Q 0.02 = 0.02%float /\
  of_Q 1e-200 = 1e-200%float /\
  of_Q 5e-324 = 5e-324%float /\
  of_Q 1.7976931348623157e308 = 1.7976931348623157e308%float /\
  of_Q 1e400 = infinity.
Proof. repeat apply conj; vm_compute; reflexivity. Qed.

End Binary64Facts.

Module ExactFacts.
Import Exact Physics.
Local Open Scope R_scope.



Lemma Q2R_lit (n : Z) (d : positive) : Q2R (n # d) = IZR n / IZR (Zpos d).
Proof. reflexivity. Qed.

End ExactFacts.


(** ** The physics service in exact arithmetic *)

Module ExactPhysics.
Import Exact Physics PhysicsSpec ExactFacts.
Local Open Scope R_scope.
#[local] Existing Instance Exact.number.

Ltac eval_lit :=
  repeat match goal with
  | |- context [Q2R ?q] =>
      let q' := eval vm_compute in q in
      change (Q2R q) with (Q2R q'); rewrite Q2R_lit
  end.












Lemma ln_3_2_lower : 1 / 3 < ln (3 / 2).
Proof.
  assert (He : exp (1 / 3) < 3 / 2).
  { destruct (Rlt_dec (exp (1 / 3)) (3 / 2)) as [H | H]; [assumption | exfalso].
    apply Rnot_lt_le in H.
    assert (H3 : exp 1 = exp (1 / 3) * exp (1 / 3) * exp (1 / 3)).
    { rewrite <- !exp_plus. f_equal. field. }
    assert (Hle := exp_le_3).
    assert (Hp := exp_pos (1 / 3)).
    nra. }
  rewrite <- (ln_exp (1 / 3)) at 1.
  apply ln_increasing; [apply exp_pos | assumption].
Qed.

Lemma Rpower_3_2_lower (e : R) : 0 < e -> 1 + e / 3 < Rpower (3 / 2) e.
Proof.
  intros He. unfold Rpower.
  assert (Hl := ln_3_2_lower).
  assert (Hx : 0 < e * ln (3 / 2)) by nra.
  assert (Hne : e * ln (3 / 2) <> 0) by lra.
  assert (H1 := exp_ineq1 (e * ln (3 / 2)) Hne). nra.
Qed.

Lemma branch_gap : Rpower (3 / 2) (9 / 5) + 4 / 10 < Rpower (3 / 2) (5 / 2).
Proof.
  replace (5 / 2) with (9 / 5 + 7 / 10) by field.
  replace (9 / 5) with (1 + 4 / 5) by field.
  rewrite !Rpower_plus, Rpower_1 by lra.
  assert (H1 : 1 + (4 / 5) / 3 < Rpower (3 / 2) (4 / 5)) by (apply Rpower_3_2_lower; lra).
  assert (H2 : 1 + (7 / 10) / 3 < Rpower (3 / 2) (7 / 10)) by (apply Rpower_3_2_lower; lra).
  nra.
Qed.

Lemma xpow_pos (x e : R) : 0 < x -> e <> 0 -> xpow (XFin x) (XFin e) = XFin (Rpower x e).
Proof.
  intros Hx He. unfold xpow.
  destruct (Req_dec_T e 0); [contradiction |].
  destruct (total_order_T 0 x) as [[H | H] | H]; [reflexivity | lra | lra].
Qed.

Lemma xltb_true (x y : R) : x < y -> xltb (XFin x) (XFin y) = true.
Proof. intros H. unfold xltb. destruct (Rlt_dec x y); [reflexivity | contradiction]. Qed.

Lemma xltb_false (x y : R) : y <= x -> xltb (XFin x) (XFin y) = false.
Proof. intros H. unfold xltb. destruct (Rlt_dec x y); [lra | reflexivity]. Qed.

Lemma lit_mass_radius :
  Q2R 1.5 = 3 / 2 /\ Q2R 1.8 = 9 / 5 /\ Q2R 2.5 = 5 / 2 /\ Q2R 4 = 4.
Proof. eval_lit. repeat apply conj; lra. Qed.

Lemma estimate_at_breakpoint :
  estimateMassFromRadius (XFin (3 / 2)) = XFin (Rpower (3 / 2) (5 / 2)).
Proof.
  destruct lit_mass_radius as (H15 & H18 & H25 & H4).
  unfold estimateMassFromRadius.
  cbn [lit ltb Math_pow Exact.number].
  rewrite H15, H25, H4.
  rewrite xltb_false by lra. rewrite xltb_true by lra.
  apply xpow_pos; lra.
Qed.

Lemma estimate_below_breakpoint (r : R) :
  0 < r < 3 / 2 -> estimateMassFromRadius (XFin r) = XFin (Rpower r (9 / 5)).
Proof.
  intros Hr.
  destruct lit_mass_radius as (H15 & H18 & H25 & H4).
  unfold estimateMassFromRadius.
  cbn [lit ltb Math_pow Exact.number].
  rewrite H15, H18.
  rewrite xltb_true by lra.
  apply xpow_pos; lra.
Qed.

(** C4, refuted as stated.  At radius 1.5 the value of the first branch,
    1.5^1.8, and the value of the second branch, 1.5^2.5, are not within
    1e-6 of each other. *)
Lemma mass_radius_branches_not_close :
  exists v1 v2 : R,
    Math_pow ($1.5)%js ($1.8)%js = XFin v1 /\
    Math_pow ($1.5)%js ($2.5)%js = XFin v2 /\
    ~ Rabs (v1 - v2) < 1e-6.
Proof.
  destruct lit_mass_radius as (H15 & H18 & H25 & _).
  exists (Rpower (3 / 2) (9 / 5)), (Rpower (3 / 2) (5 / 2)).
  cbn [lit Math_pow Exact.number]. rewrite H15, H18, H25.
  repeat apply conj; try (apply xpow_pos; lra).
  assert (Hgap := branch_gap).
  intros Habs. apply Rabs_def2 in Habs. lra.
Qed.

(** C4, as amended.  The estimator jumps at the breakpoint: its value at
    1.5 Earth radii is 1.5^2.5, and it exceeds the estimate for every
    smaller positive radius by more than 0.4 Earth masses. *)
Theorem mass_radius_jump_at_breakpoint (r : R) :
  0 < r < 3 / 2 ->
  exists below at_break : R,
    estimateMassFromRadius (XFin r) = XFin below /\
    estimateMassFromRadius ($1.5)%js = XFin at_break /\
    at_break = Rpower (3 / 2) (5 / 2) /\
    below + 4 / 10 < at_break.
Proof.
  intros Hr.
  exists (Rpower r (9 / 5)), (Rpower (3 / 2) (5 / 2)).
  destruct lit_mass_radius as (H15 & _).
  cbn [lit Exact.number]. rewrite H15.
  repeat apply conj.
  - apply estimate_below_breakpoint; assumption.
  - apply estimate_at_breakpoint.
  - reflexivity.
  - assert (Hmono : Rpower r (9 / 5) < Rpower (3 / 2) (9 / 5))
      by (apply Rlt_Rpower_l; lra).
    assert (Hgap := branch_gap). lra.
Qed.

(** The jump, seen from one Earth radius. *)
Lemma mass_radius_jump_at_breakpoint_witness :
  exists below at_break : R,
    estimateMassFromRadius (XFin 1) = XFin below /\
    estimateMassFromRadius ($1.5)%js = XFin at_break /\
    at_break = Rpower (3 / 2) (5 / 2) /\
    below + 4 / 10 < at_break.
Proof. apply mass_radius_jump_at_breakpoint; lra. Defined.

End ExactPhysics.


(** ** The physics service over any number interface *)

Module PhysicsFacts.
Import Physics PhysicsSpec.
Local Open Scope js_scope.

Section Generic.
Context {T : Type} {N : JSNumber T}.

Lemma push_if_app (c : bool) (w : string) (l : list string) :
  push_if c w l = l ++ (if c then [w] else []).
Proof. unfold push_if. destruct c; [reflexivity | rewrite app_nil_r; reflexivity]. Qed.

Lemma rule_table_cons (c : bool) (w : string) (rest : list (bool * string)) :
  map snd (filter fst ((c, w) :: rest))
  = (if c then [w] else []) ++ map snd (filter fst rest).
Proof. destruct c; reflexivity. Qed.

Lemma validate_is_rule_table (params : PhysicsCalculationInput T) :
  validatePhysicalPlausibility params
  = map snd (filter fst (plausibility_rules params)).
Proof.
  unfold validatePhysicalPlausibility, plausibility_rules.
  destruct (radiusEarth params) as [r |], (massEarth params) as [m |],
           (orbitalPeriodDays params) as [p |], (transitDepthPPM params) as [d |];
    cbv beta zeta iota delta [on_field];
    rewrite ?push_if_app, !rule_table_cons;
    cbn [filter map app];
    rewrite ?app_nil_r, <- ?app_assoc; reflexivity.
Qed.

Lemma verdict_iff_no_warning (input : PhysicsCalculationInput T) :
  r_isPhysicallyPlausible (calculate input) = true
  <-> r_warnings (calculate input) = [].
Proof.
  change (r_isPhysicallyPlausible (calculate input))
    with (Nat.eqb (List.length (validatePhysicalPlausibility input)) 0).
  change (r_warnings (calculate input)) with (validatePhysicalPlausibility input).
  destruct (validatePhysicalPlausibility input); cbn [List.length Nat.eqb];
    split; congruence.
Qed.


End Generic.

(** C5.  The warnings of the composite calculation are those of the
    validator, and its verdict is [true] exactly when there are none; the
    validator returns the warnings of all the rules that fire, in the
    order of the rule table, with no early exit.  On binary64 numbers a
    radius of 0.3 Earth radii draws a warning that contains "radius", and
    an Earth-like planet (radius 1.0, mass 1.0) draws none. *)
Theorem plausibility_verdict_and_rules :
  (forall (T : Type) (N : JSNumber T) (input : PhysicsCalculationInput T),
      r_warnings (calculate input) = validatePhysicalPlausibility input /\
      (r_isPhysicallyPlausible (calculate input) = true
       <-> r_warnings (calculate input) = []) /\
      validatePhysicalPlausibility input
      = map snd (filter fst (plausibility_rules input))) /\
  (forall m : Binary64.Libm,
      (exists w : string,
          In w (validatePhysicalPlausibility (N := Binary64.number m)
                  (with_radiusEarth (Some (Binary64.of_Q 0.3)) emptyInput)) /\
          JsString.includes w "radius" = true) /\
      validatePhysicalPlausibility (N := Binary64.number m)
        (with_massEarth (Some (Binary64.of_Q 1.0))
           (with_radiusEarth (Some (Binary64.of_Q 1.0)) emptyInput)) = []).
Proof.
  split.
  - intros T N input.
    split; [reflexivity |].
    split; [exact (verdict_iff_no_warning input) | exact (validate_is_rule_table input)].
  - intros m. split.
    + exists "Planet radius very small (< 0.5 R⊕)"%string. split.
      * vm_compute. left. reflexivity.
      * vm_compute. reflexivity.
    + vm_compute. reflexivity.
Qed.

End PhysicsFacts.

(** ** The Kepler formulas on binary64 numbers *)

Module Binary64Physics.
Import Binary64 Physics PhysicsSpec.



End Binary64Physics.


(** ** Guards of the scalar formulas *)

Module PhysicsGuards.
Import Exact Physics PhysicsSpec ExactPhysics.
Local Open Scope js_scope.




End PhysicsGuards.

(** ** Spread calls *)

Module EngineFacts.
Import Runtime.
Local Open Scope string_scope.

Lemma normal_result_inj {A S : Type} (a b : A) (s t : S) :
  (Normal a, s) = (Normal b, t) -> a = b /\ s = t.
Proof. intros H. injection H as Ha Hs. split; assumption. Qed.

Section WithEngine.
Context {engine : Engine}.

Lemma least_limit : (Z.to_nat 65535 <= argument_limit)%nat.
Proof. unfold argument_limit, least_argument_limit. apply Nat.le_add_r. Qed.


(** Within the limit a spread call is the call. *)
Lemma spread_within {A : Type} (f : list float -> A) (args : list float) :
  (List.length args <= argument_limit)%nat -> spread f args = Normal (f args).
Proof.
  intros H. unfold spread. apply Nat.leb_le in H. rewrite H. reflexivity.
Qed.

Lemma spread_beyond {A : Type} (f : list float -> A) (args : list float) :
  (argument_limit < List.length args)%nat ->
  spread f args = Throw "RangeError: Maximum call stack size exceeded".
Proof.
  intros H. unfold spread. apply Nat.leb_gt in H. rewrite H. reflexivity.
Qed.

Lemma spread_cases {A : Type} (f : list float -> A) (args : list float) :
  ((List.length args <= argument_limit)%nat /\ spread f args = Normal (f args)) \/
  ((argument_limit < List.length args)%nat /\
   spread f args = Throw "RangeError: Maximum call stack size exceeded").
Proof.
  destruct (Nat.le_gt_cases (List.length args) argument_limit) as [H | H].
  - left. split; [exact H | apply spread_within, H].
  - right. split; [exact H | apply spread_beyond, H].
Qed.

(** A spread call that returns has taken no more arguments than the
    limit. *)
Lemma spread_normal {A : Type} (f : list float -> A) (args : list float) (v : A) :
  spread f args = Normal v -> (List.length args <= argument_limit)%nat /\ v = f args.
Proof.
  unfold spread.
  destruct (Nat.leb_spec (List.length args) argument_limit) as [H | H];
    [| discriminate].
  intros E. injection E as <-. split; [exact H | reflexivity].
Qed.

End WithEngine.

End EngineFacts.

(** ** Strings *)

Module JsStringFacts.
Import JsString ParserSpec.
Local Open Scope string_scope.

Lemma all_chars_app (p : ascii -> bool) (a b : string) :
  all_chars p (a ++ b) = all_chars p a && all_chars p b.
Proof.
  induction a as [| c a IH]; cbn [append all_chars]; [reflexivity |].
  rewrite IH, andb_assoc. reflexivity.
Qed.

Lemma all_chars_weaken (p q : ascii -> bool) (s : string) :
  (forall c, p c = true -> q c = true) ->
  all_chars p s = true -> all_chars q s = true.
Proof.
  intros Hpq. induction s as [| c s IH]; cbn [all_chars]; [reflexivity |].
  intros H. apply andb_true_iff in H as [Hc Hs].
  rewrite (Hpq c Hc), (IH Hs). reflexivity.
Qed.

(** A string with no white space in it is its own trimmed form. *)
Lemma trimStart_no_space (s : string) :
  no_space s = true -> trimStart s = s.
Proof.
  destruct s as [| c s]; cbn [no_space all_chars trimStart]; [reflexivity |].
  intros H. apply andb_true_iff in H as [Hc _].
  apply negb_true_iff in Hc. rewrite Hc. reflexivity.
Qed.

Lemma trimEnd_no_space (s : string) :
  no_space s = true -> trimEnd s = s.
Proof.
  induction s as [| c s IH]; cbn [no_space all_chars trimEnd]; [reflexivity |].
  intros H. apply andb_true_iff in H as [Hc Hs].
  apply negb_true_iff in Hc. rewrite Hc, (IH Hs). reflexivity.
Qed.

Lemma trim_no_space (s : string) :
  no_space s = true -> trim s = s.
Proof.
  intros H. unfold trim. rewrite (trimStart_no_space _ H). apply trimEnd_no_space. exact H.
Qed.

(** Trimming the end leaves a prefix alone when something remains after it. *)
Lemma trimEnd_app (a b : string) :
  is_empty (trimEnd b) = false -> trimEnd (a ++ b) = a ++ trimEnd b.
Proof.
  intros Hb. induction a as [| c a IH]; cbn [append trimEnd]; [reflexivity |].
  rewrite IH.
  replace (is_empty (a ++ trimEnd b)) with false.
  - rewrite andb_false_r. reflexivity.
  - destruct a; cbn [append is_empty]; [symmetry; assumption | reflexivity].
Qed.

(** White space at the end of a text is trimmed away. *)
Lemma trimEnd_blank (t : string) : all_chars is_whitespace t = true -> trimEnd t = EmptyString.
Proof.
  induction t as [| c t IH]; cbn [all_chars trimEnd]; [reflexivity |].
  intros H. apply andb_true_iff in H as [Hc Ht].
  rewrite Hc, (IH Ht). reflexivity.
Qed.

Lemma trimEnd_trailer (s t : string) :
  all_chars is_whitespace t = true -> trimEnd (s ++ t) = trimEnd s.
Proof.
  intros Ht. induction s as [| c s IH]; cbn [append trimEnd].
  - apply trimEnd_blank, Ht.
  - rewrite IH. reflexivity.
Qed.

Lemma split_no_sep (sep : ascii) (s : string) :
  all_chars (fun c => negb (Ascii.eqb c sep)) s = true -> split sep s = [s].
Proof.
  induction s as [| c s IH]; cbn [all_chars split]; [reflexivity |].
  intros H. apply andb_true_iff in H as [Hc Hs].
  apply negb_true_iff in Hc. rewrite Hc, (IH Hs). reflexivity.
Qed.

Lemma split_app_sep (sep : ascii) (a b : string) :
  all_chars (fun c => negb (Ascii.eqb c sep)) a = true ->
  split sep (a ++ String sep b) = a :: split sep b.
Proof.
  induction a as [| c a IH]; cbn [all_chars append split].
  - intros _. rewrite Ascii.eqb_refl. reflexivity.
  - intros H. apply andb_true_iff in H as [Hc Hs].
    apply negb_true_iff in Hc. rewrite Hc, (IH Hs). reflexivity.
Qed.

(** Splitting undoes joining when no piece holds the separator. *)
Lemma split_join (sep : ascii) (l : list string) :
  l <> [] ->
  Forall (fun s => all_chars (fun c => negb (Ascii.eqb c sep)) s = true) l ->
  split sep (join (String sep EmptyString) l) = l.
Proof.
  intros Hne Hall. induction Hall as [| s l Hs Hl IH]; [contradiction |].
  destruct l as [| s' l'].
  - cbn [join]. apply split_no_sep, Hs.
  - change (join (String sep EmptyString) (s :: s' :: l'))
      with (s ++ String sep (join (String sep EmptyString) (s' :: l'))).
    rewrite split_app_sep by exact Hs. rewrite IH by discriminate. reflexivity.
Qed.

Lemma all_chars_join (p : ascii -> bool) (sep : string) (l : list string) :
  all_chars p sep = true ->
  Forall (fun s => all_chars p s = true) l ->
  all_chars p (join sep l) = true.
Proof.
  intros Hsep Hall. induction Hall as [| s l Hs Hl IH]; [reflexivity |].
  destruct l as [| s' l']; [exact Hs |].
  change (join sep (s :: s' :: l')) with (s ++ sep ++ join sep (s' :: l')).
  rewrite !all_chars_app, Hs, Hsep, IH. reflexivity.
Qed.

End JsStringFacts.


(** ** The parser on well-formed tables *)

Module ParserFacts.
Import JsString Global Runtime DataParser ParserSpec JsStringFacts EngineFacts.
Local Open Scope string_scope.
Local Open Scope list_scope.

Lemma plain_no_space (s : string) : plain s = true -> no_space s = true.
Proof.
  apply all_chars_weaken. intros c H.
  apply andb_true_iff in H as [H _]. exact H.
Qed.

Lemma plain_no_comma (s : string) :
  plain s = true -> all_chars (fun c => negb (Ascii.eqb c ",")) s = true.
Proof.
  apply all_chars_weaken. intros c H.
  apply andb_true_iff in H as [_ H]. exact H.
Qed.

Lemma no_space_no_newline (s : string) :
  no_space s = true -> all_chars (fun c => negb (Ascii.eqb c "010")) s = true.
Proof.
  apply all_chars_weaken. intros c H.
  destruct (Ascii.eqb_spec c "010") as [-> | _]; [discriminate H | reflexivity].
Qed.

(** What [parseFloat] reads as a number is not empty and does not start
    a comment. *)
Lemma number_not_comment (s rest : string) :
  isNaN (parseFloat s) = false -> is_comment_or_blank (s ++ rest)%string = false.
Proof.
  intros Hnum. destruct s as [| c s].
  - vm_compute in Hnum. discriminate Hnum.
  - unfold is_comment_or_blank. cbn [append is_empty startsWith orb].
    destruct (Ascii.eqb_spec "#" c) as [<- | _].
    + vm_compute in Hnum. discriminate Hnum.
    + destruct (Ascii.eqb_spec "%" c) as [<- | _].
      * vm_compute in Hnum. discriminate Hnum.
      * reflexivity.
Qed.

Lemma numeric_cell_not_empty (s : string) : numeric_cell s -> is_empty s = false.
Proof.
  intros [_ Hnum]. destruct s; [vm_compute in Hnum; discriminate Hnum | reflexivity].
Qed.

(** A line of numeric cells: no white space in it, something in it. *)
Lemma numeric_line_clean (row : list string) :
  row <> [] -> Forall numeric_cell row ->
  no_space (csv_line row) = true /\ is_empty (csv_line row) = false.
Proof.
  intros Hne Hrow. split.
  - apply all_chars_join; [reflexivity |].
    eapply Forall_impl; [| exact Hrow].
    intros s [Hs _]. apply plain_no_space, Hs.
  - destruct Hrow as [| s row Hs Hrow]; [contradiction |].
    apply numeric_cell_not_empty in Hs.
    destruct s as [| c s]; [discriminate Hs |].
    destruct row; reflexivity.
Qed.

Lemma trimEnd_lines (lines : list string) :
  lines <> [] ->
  Forall (fun l => no_space l = true /\ is_empty l = false) lines ->
  trimEnd (join newline lines) = join newline lines /\
  is_empty (join newline lines) = false.
Proof.
  intros Hne Hall. induction Hall as [| l lines [Hl Hl'] Hall IH]; [contradiction |].
  destruct lines as [| l2 lines].
  - cbn [join]. split; [apply trimEnd_no_space, Hl | exact Hl'].
  - change (join newline (l :: l2 :: lines))
      with (l ++ (newline ++ join newline (l2 :: lines)))%string.
    destruct IH as [IH1 IH2]; [discriminate |].
    assert (Htail : trimEnd (newline ++ join newline (l2 :: lines))%string
                    = (newline ++ join newline (l2 :: lines))%string).
    { rewrite trimEnd_app by (rewrite IH1; exact IH2). rewrite IH1. reflexivity. }
    split.
    + rewrite trimEnd_app by (rewrite Htail; reflexivity).
      rewrite Htail. reflexivity.
    + destruct l; [discriminate Hl' | reflexivity].
Qed.

(** The lines the parser sees are the lines that were written, also when
    white space follows the last of them. *)
Lemma lines_of_text (lines : list string) (trailer : string) :
  lines <> [] ->
  Forall (fun l => no_space l = true /\ is_empty l = false) lines ->
  all_chars is_whitespace trailer = true ->
  split "010" (trim (join newline lines ++ trailer)) = lines.
Proof.
  intros Hne Hall Htrailer.
  assert (Hstart : trimStart (join newline lines ++ trailer)
                   = (join newline lines ++ trailer)%string).
  { destruct lines as [| l lines]; [contradiction |].
    inversion Hall as [| ? ? [Hl Hl'] _]; subst.
    destruct l as [| c l]; [discriminate Hl' |].
    cbn [no_space all_chars] in Hl. apply andb_true_iff in Hl as [Hc _].
    apply negb_true_iff in Hc.
    destruct lines; cbn [join append trimStart]; rewrite Hc; reflexivity. }
  unfold trim. rewrite Hstart, trimEnd_trailer by exact Htrailer.
  destruct (trimEnd_lines Hne Hall) as [-> _].
  apply split_join; [exact Hne |].
  eapply Forall_impl; [| exact Hall].
  intros l [Hl _]. apply no_space_no_newline, Hl.
Qed.

Lemma trim_cells (row : list string) :
  Forall numeric_cell row -> map trim row = row.
Proof.
  intros Hrow. induction Hrow as [| s row [Hs _] _ IH]; [reflexivity |].
  cbn [map]. rewrite IH, trim_no_space by (apply plain_no_space, Hs). reflexivity.
Qed.

Lemma cells_of_line (row : list string) :
  row <> [] -> Forall numeric_cell row ->
  map trim (split "," (trim (csv_line row))) = row.
Proof.
  intros Hne Hrow.
  destruct (numeric_line_clean Hne Hrow) as [Hclean _].
  rewrite trim_no_space by exact Hclean.
  unfold csv_line. rewrite split_join.
  - apply trim_cells, Hrow.
  - exact Hne.
  - eapply Forall_impl; [| exact Hrow].
    intros s [Hs _]. apply plain_no_comma, Hs.
Qed.

(** A row of four numeric cells adds one sample to each of the three
    arrays when the columns are 1, 2 and 3. *)
Lemma parse_row_numeric (row : list string) (acc : Columns) :
  numeric_row 4 row ->
  parse_row 1 2 3 (csv_line row) acc
  = {| c_time := c_time acc ++ [cell_value 1 row];
       c_flux := c_flux acc ++ [cell_value 2 row];
       c_error := c_error acc ++ [cell_value 3 row] |}.
Proof.
  intros [Hlen Hrow].
  destruct row as [| c0 [| c1 [| c2 [| c3 [| ? ?]]]]]; try discriminate Hlen.
  assert (Hne : [c0; c1; c2; c3] <> []) by discriminate.
  unfold parse_row.
  rewrite (cells_of_line Hne Hrow).
  destruct (numeric_line_clean Hne Hrow) as [Hclean _].
  rewrite trim_no_space by exact Hclean.
  inversion Hrow as [| ? ? [_ H0] Hrow1]; subst.
  inversion Hrow1 as [| ? ? [_ H1] Hrow2]; subst.
  inversion Hrow2 as [| ? ? [_ H2] Hrow3]; subst.
  inversion Hrow3 as [| ? ? [_ H3] _]; subst.
  change (csv_line [c0; c1; c2; c3]) with (c0 ++ ("," ++ csv_line [c1; c2; c3]))%string.
  rewrite number_not_comment by exact H0.
  change (length_Z [c0; c1; c2; c3] <=? Z.max 1 2)%Z with false.
  change (negb (3 =? -1)%Z && (3 <? length_Z [c0; c1; c2; c3])%Z) with true.
  change (parseFloat_at [c0; c1; c2; c3] 1) with (parseFloat c1).
  change (parseFloat_at [c0; c1; c2; c3] 2) with (parseFloat c2).
  change (parseFloat_at [c0; c1; c2; c3] 3) with (parseFloat c3).
  rewrite H1, H2, H3. reflexivity.
Qed.

Lemma parse_rows_numeric (rows : list (list string)) (acc : Columns) :
  Forall (numeric_row 4) rows ->
  fold_left (fun acc raw => parse_row 1 2 3 raw acc) (map csv_line rows) acc
  = {| c_time := c_time acc ++ map (cell_value 1) rows;
       c_flux := c_flux acc ++ map (cell_value 2) rows;
       c_error := c_error acc ++ map (cell_value 3) rows |}.
Proof.
  intros Hrows. revert acc.
  induction Hrows as [| row rows Hrow _ IH]; intros acc.
  - cbn [map fold_left]. rewrite !app_nil_r. destruct acc; reflexivity.
  - cbn [map fold_left]. rewrite (parse_row_numeric acc Hrow), IH.
    cbn [c_time c_flux c_error]. rewrite <- !app_assoc. reflexivity.
Qed.

Lemma kepler_lines (rows : list (list string)) (trailer : string) :
  Forall (numeric_row 4) rows ->
  all_chars is_whitespace trailer = true ->
  split "010" (trim (csv_text kepler_header rows ++ trailer))
  = csv_line kepler_header :: map csv_line rows.
Proof.
  intros Hrows Htrailer. unfold csv_text. cbn [map].
  apply lines_of_text; [discriminate | | exact Htrailer].
  constructor; [split; reflexivity |].
  apply Forall_map. eapply Forall_impl; [| exact Hrows].
  intros row [Hlen Hrow]. apply numeric_line_clean; [| exact Hrow].
  destruct row; [discriminate Hlen | discriminate].
Qed.

Section WithEngine.
Context {engine : Engine}.

Lemma data_statistics_within (time flux : list float) :
  (List.length time <= argument_limit)%nat ->
  (List.length flux <= argument_limit)%nat ->
  data_statistics time flux = Normal tt.
Proof.
  intros Ht Hf. unfold data_statistics.
  rewrite !spread_within by assumption. reflexivity.
Qed.

Lemma data_statistics_beyond (time flux : list float) :
  (argument_limit < List.length time)%nat ->
  data_statistics time flux
  = Throw "RangeError: Maximum call stack size exceeded".
Proof.
  intros Ht. unfold data_statistics.
  rewrite spread_beyond by assumption. reflexivity.
Qed.

Lemma parseCSVDataWithIndices_kepler (rows : list (list string)) (trailer : string)
    (g : RNG) :
  rows <> [] -> Forall (numeric_row 4) rows ->
  all_chars is_whitespace trailer = true ->
  (List.length rows <= argument_limit)%nat ->
  parseCSVDataWithIndices (csv_text kepler_header rows ++ trailer) 1 2 3 g
  = (Normal {| time := map (cell_value 1) rows;
               flux := map (cell_value 2) rows;
               error := Some (map (cell_value 3) rows);
               metadata :=
                 {| source := kepler;
                    targetId := extractTargetId (csv_text kepler_header rows ++ trailer);
                    campaign := None; sector := None |} |}, g).
Proof.
  intros Hne Hrows Htrailer Hlimit. unfold parseCSVDataWithIndices.
  rewrite kepler_lines by assumption. unfold parse_rows. cbn [tl].
  rewrite (parse_rows_numeric no_columns Hrows).
  cbn [c_time c_flux c_error no_columns app].
  rewrite data_statistics_within by (rewrite length_map; exact Hlimit).
  destruct rows as [| row rows]; [contradiction |].
  cbn [map List.length Nat.eqb Nat.ltb Nat.leb error_or_undefined].
  replace (detectDataSource (header_of (csv_line kepler_header
                                          :: csv_line row :: map csv_line rows)))
    with kepler by (vm_compute; reflexivity).
  reflexivity.
Qed.

Lemma parseCSVDataWithIndices_kepler_beyond (rows : list (list string))
    (trailer : string) (g : RNG) :
  Forall (numeric_row 4) rows ->
  all_chars is_whitespace trailer = true ->
  (argument_limit < List.length rows)%nat ->
  parseCSVDataWithIndices (csv_text kepler_header rows ++ trailer) 1 2 3 g
  = (Throw "RangeError: Maximum call stack size exceeded", g).
Proof.
  intros Hrows Htrailer Hlimit. unfold parseCSVDataWithIndices.
  rewrite kepler_lines by assumption. unfold parse_rows. cbn [tl].
  rewrite (parse_rows_numeric no_columns Hrows).
  cbn [c_time c_flux c_error no_columns app].
  rewrite data_statistics_beyond by (rewrite length_map; exact Hlimit).
  destruct rows as [| row rows]; [cbn [List.length] in Hlimit; lia |].
  reflexivity.
Qed.

(** C9.  A CSV text with the header KIC, TIME, PDCSAP_FLUX, FLUX_ERR and
    100 rows of four numeric cells, with or without white space (a final
    line feed, say) after the last row, is parsed without error: the time,
    flux and error arrays hold the numbers of columns 1, 2 and 3 of the
    rows, so each has length 100 and the error array is there and not
    empty, and the source is kepler. *)
Theorem kepler_table_parses (rows : list (list string)) (trailer : string) (g : RNG) :
  List.length rows = 100%nat ->
  Forall (numeric_row 4) rows ->
  all_chars is_whitespace trailer = true ->
  exists lc : ParsedLightCurve,
    parseCSVData (csv_text kepler_header rows ++ trailer) g = (Normal lc, g) /\
    time lc = map (cell_value 1) rows /\
    flux lc = map (cell_value 2) rows /\
    List.length (time lc) = 100%nat /\
    List.length (flux lc) = 100%nat /\
    (exists e : list float,
        error lc = Some e /\ e = map (cell_value 3) rows /\
        e <> [] /\ List.length e = 100%nat) /\
    source (metadata lc) = kepler.
Proof.
  intros Hlen Hrows Htrailer.
  assert (Hne : rows <> []) by (destruct rows; [discriminate Hlen | discriminate]).
  unfold parseCSVData.
  rewrite kepler_lines by assumption.
  replace (header_of (csv_line kepler_header :: map csv_line rows))
    with ["kic"; "time"; "pdcsap_flux"; "flux_err"] by (vm_compute; reflexivity).
  replace (findIndex time_header ["kic"; "time"; "pdcsap_flux"; "flux_err"])
    with 1%Z by (vm_compute; reflexivity).
  replace (findIndex flux_header ["kic"; "time"; "pdcsap_flux"; "flux_err"])
    with 2%Z by (vm_compute; reflexivity).
  replace (findIndex error_header ["kic"; "time"; "pdcsap_flux"; "flux_err"])
    with 3%Z by (vm_compute; reflexivity).
  cbn [List.length Nat.ltb Nat.leb Z.eqb orb].
  rewrite parseCSVDataWithIndices_kepler;
    [| assumption | assumption | assumption
     | rewrite Hlen; apply Nat.le_trans with (Z.to_nat 65535); [lia | apply least_limit]].
  eexists. split; [reflexivity |].
  cbn [time flux error metadata source].
  rewrite !length_map, Hlen.
  repeat apply conj; try reflexivity.
  exists (map (cell_value 3) rows).
  rewrite length_map, Hlen.
  repeat apply conj; try reflexivity.
  destruct rows; [discriminate Hlen | discriminate].
Qed.

End WithEngine.

(** Every row of [sample_rows] has four numeric cells. *)
Lemma sample_rows_numeric : Forall (numeric_row 4) sample_rows.
Proof.
  let l := eval vm_compute in sample_rows in change sample_rows with l.
  repeat (apply Forall_cons;
          [split;
           [reflexivity
           | repeat (apply Forall_cons; [split; vm_compute; reflexivity |]);
             apply Forall_nil] |]).
  apply Forall_nil.
Defined.

(** The table of [sample_rows], written with a final line feed. *)
Lemma kepler_table_parses_witness :
  exists lc : ParsedLightCurve,
    parseCSVData (engine := smallest_engine)
      (csv_text kepler_header sample_rows ++ newline) constant_rng
    = (Normal lc, constant_rng) /\
    time lc = map (cell_value 1) sample_rows /\
    flux lc = map (cell_value 2) sample_rows /\
    List.length (time lc) = 100%nat /\
    List.length (flux lc) = 100%nat /\
    (exists e : list float,
        error lc = Some e /\ e = map (cell_value 3) sample_rows /\
        e <> [] /\ List.length e = 100%nat) /\
    source (metadata lc) = kepler.
Proof.
  apply kepler_table_parses.
  - vm_compute. reflexivity.
  - exact sample_rows_numeric.
  - vm_compute. reflexivity.
Defined.

End ParserFacts.


(** ** The parser on degenerate, ragged and ambiguous tables *)

Module ParserEdgeCases.
Import JsString Global Runtime DataParser ParserSpec.
Local Open Scope string_scope.
Local Open Scope list_scope.

Lemma parse_row_aligned (ti fi ei : Z) (raw : string) (acc : Columns) :
  aligned acc -> aligned (parse_row ti fi ei raw acc).
Proof.
  intros [Htf Herr]. unfold parse_row.
  repeat match goal with
         | |- context [if ?c then _ else _] => destruct c
         end;
    unfold aligned; cbn [c_time c_flux c_error]; rewrite ?length_app;
    cbn [List.length]; lia.
Qed.

Lemma parse_text_line_aligned (line : string) (acc : Columns) :
  aligned acc -> aligned (parse_text_line line acc).
Proof.
  intros [Htf Herr]. unfold parse_text_line.
  repeat match goal with
         | |- context [if ?c then _ else _] => destruct c
         end;
    unfold aligned; cbn [c_time c_flux c_error]; rewrite ?length_app;
    cbn [List.length]; lia.
Qed.

Lemma fold_aligned (step : Columns -> string -> Columns) (lines : list string)
    (acc : Columns) :
  (forall acc raw, aligned acc -> aligned (step acc raw)) ->
  aligned acc -> aligned (fold_left step lines acc).
Proof.
  intros Hstep. revert acc.
  induction lines as [| raw lines IH]; intros acc Hacc; [exact Hacc |].
  cbn [fold_left]. apply IH, Hstep, Hacc.
Qed.

Lemma no_columns_aligned : aligned no_columns.
Proof. split; cbn; lia. Qed.

Lemma parse_rows_aligned (ti fi ei : Z) (lines : list string) :
  aligned (parse_rows ti fi ei lines).
Proof.
  unfold parse_rows. apply fold_aligned; [| exact no_columns_aligned].
  intros acc raw. apply parse_row_aligned.
Qed.

(** The part of the length invariant that every parser path keeps: time and
    flux have one length. *)
Lemma time_flux_same_length :
  (forall content headers,
      List.length (time (parseKeplerKOIData content headers))
      = List.length (flux (parseKeplerKOIData content headers))) /\
  (forall text,
      List.length (time (parseTextData text))
      = List.length (flux (parseTextData text))).
Proof.
  split.
  - intros content headers. unfold parseKeplerKOIData. cbn [time flux].
    apply parse_rows_aligned.
  - intros text. unfold parseTextData. cbn [time flux].
    apply fold_aligned; [| exact no_columns_aligned].
    intros acc raw. apply parse_text_line_aligned.
Qed.

Lemma for_upto_count {S : Type} (size : S -> nat) (bound : float)
    (body : nat -> S -> S) (s : S) :
  (forall i s, size (body i s) = Datatypes.S (size s)) ->
  size (for_upto bound body s) = (size s + loop_count bound)%nat.
Proof.
  intros Hbody. unfold for_upto.
  generalize 0%nat as start. revert s.
  induction (loop_count bound) as [| n IH]; intros s start; cbn [seq fold_left].
  - lia.
  - rewrite IH, Hbody. lia.
Qed.

Lemma mock_rounds : Z.of_nat (loop_count (duration / cadence)) = 50000%Z.
Proof.
  unfold loop_count.
  replace (Binary64.ceilZ (duration / cadence)) with (Some 50000%Z)
    by (vm_compute; reflexivity).
  apply Z2Nat.id. lia.
Qed.

(** The mock light curve has 50000 samples in each of its three arrays. *)
Lemma mock_light_curve_length (g : RNG) :
  length_Z (time (fst (generateMockLightCurve g))) = 50000%Z /\
  length_Z (flux (fst (generateMockLightCurve g))) = 50000%Z /\
  exists e, error (fst (generateMockLightCurve g)) = Some e /\ length_Z e = 50000%Z.
Proof.
  unfold generateMockLightCurve. cbn [fst time flux error].
  repeat apply conj.
  - unfold generateMockTimeSeries, length_Z.
    rewrite (for_upto_count (@List.length float)).
    + exact mock_rounds.
    + intros i s. rewrite length_app. cbn [List.length]. lia.
  - unfold generateMockFluxSeries, length_Z.
    rewrite (for_upto_count (fun s : list float * RNG => List.length (fst s))).
    + exact mock_rounds.
    + intros i [flux g']. cbn [fst Math_random]. rewrite length_app. cbn [List.length]. lia.
  - eexists. split; [reflexivity |].
    unfold generateMockErrorSeries, length_Z.
    rewrite (for_upto_count (fun s : list float * RNG => List.length (fst s))).
    + exact mock_rounds.
    + intros i [err g']. cbn [fst Math_random]. rewrite length_app. cbn [List.length]. lia.
Qed.

Section WithEngine.
Context {engine : Engine}.

(** The two-column path falls back to the mock light curve when no row
    parses. *)
Lemma two_column_fallback (content : string) (ti fi ei : Z) (g : RNG) :
  c_time (parse_rows ti fi ei (split "010" (trim content))) = [] ->
  parseCSVDataWithIndices content ti fi ei g
  = (Normal (fst (generateMockLightCurve g)), snd (generateMockLightCurve g)).
Proof.
  intros Hnone. unfold parseCSVDataWithIndices. rewrite Hnone. reflexivity.
Qed.

(** C2, the failing input.  A wide table (six header tokens) of which no
    row parses goes through [parseKeplerKOIData], which has no fallback: the
    call completes with empty time and flux arrays. *)
Theorem wide_table_without_rows_is_empty (g : RNG) :
  parseCSVData
    (csv_text ["kepid"; "kepoi_name"; "koi_disposition"; "koi_period"; "koi_prad"; "koi_teq"]
              [["10797460"; "K00752.01"; "CONFIRMED"; "9.488"; "2.26"; "793"]]) g
  = (Normal {| time := []; flux := []; error := None;
               metadata := {| source := kepler; targetId := None;
                              campaign := None; sector := None |} |}, g) /\
  parseCSVData
    (csv_text ["kepid"; "kepoi_name"; "koi_disposition"; "koi_period"; "koi_prad"; "koi_teq"]
              []) g
  = (Normal {| time := []; flux := []; error := None;
               metadata := {| source := kepler; targetId := None;
                              campaign := None; sector := None |} |}, g).
Proof. split; vm_compute; reflexivity. Qed.

(** C3, the failing input.  A row that has time and flux but no error
    cell adds to time and flux only: after one full row and one short row
    the error array has one entry for two samples, in the CSV parser and in
    the text parser alike. *)
Theorem short_row_misaligns_error (g : RNG) :
  parseCSVData
    (csv_text ["time"; "flux"; "error"] [["1"; "2"; "0.1"]; ["2"; "3"]]) g
  = (Normal {| time := [1; 2]%float; flux := [2; 3]%float;
               error := Some [Binary64.of_Q 0.1];
               metadata := {| source := unknown; targetId := None;
                              campaign := None; sector := None |} |}, g) /\
  parseTextData (join newline ["1 2 0.1"; "2 3"])
  = {| time := [1; 2]%float; flux := [2; 3]%float;
       error := Some [Binary64.of_Q 0.1];
       metadata := {| source := unknown; targetId := None;
                      campaign := None; sector := None |} |}.
Proof. split; vm_compute; reflexivity. Qed.

(** With one index for both columns the two arrays are the same. *)
Lemma same_index_same_arrays (i ei : Z) (lines : list string) :
  c_time (parse_rows i i ei lines) = c_flux (parse_rows i i ei lines).
Proof.
  unfold parse_rows.
  assert (Hgen : forall acc, c_time acc = c_flux acc ->
            c_time (fold_left (fun acc raw => parse_row i i ei raw acc) (tl lines) acc)
            = c_flux (fold_left (fun acc raw => parse_row i i ei raw acc) (tl lines) acc)).
  { induction (tl lines) as [| raw rest IH]; intros acc Hacc; [exact Hacc |].
    cbn [fold_left]. apply IH. unfold parse_row.
    repeat match goal with
           | |- context [if ?c then _ else _] => destruct c
           end;
      cbn [c_time c_flux]; rewrite ?Hacc; reflexivity. }
  apply Hgen. reflexivity.
Qed.

(** C10.  For the header "brightness,time" the time search and the flux
    search both stop at column 0, because "brightness" contains a "t" and
    is a flux synonym.  The two data rows below are then read from column 0
    twice: time and flux are the same array, and column 1 is never read. *)
Theorem brightness_header_reads_column_0_twice (g : RNG) :
  findIndex time_header ["brightness"; "time"] = 0%Z /\
  findIndex flux_header ["brightness"; "time"] = 0%Z /\
  includes "brightness" "t" = true /\
  exists lc : ParsedLightCurve,
    parseCSVData (csv_text ["brightness"; "time"] [["1.0"; "5"]; ["0.99"; "6"]]) g
    = (Normal lc, g) /\
    time lc = [Binary64.of_Q 1.0; Binary64.of_Q 0.99] /\
    flux lc = time lc.
Proof.
  repeat apply conj; try (vm_compute; reflexivity).
  eexists. repeat apply conj; vm_compute; reflexivity.
Qed.

End WithEngine.

End ParserEdgeCases.


(** ** The scorer front end never fails *)

Module ScorerFacts.
Import Runtime MLModel ParserSpec ScorerSpec EngineFacts.
Local Open Scope string_scope.
Local Open Scope float_scope.

Section Facts.

Context {engine : Engine}.

Variable libm : Binary64.Libm.
Variable tf_load : completion TFModel.

Lemma getMockPrediction_completes (data : LightCurveData) (s : State) :
  exists p s', getMockPrediction data s = (Normal p, s').
Proof.
  unfold getMockPrediction, bind, random, ret.
  destruct (Math_random (rng s)) as [u g]. eexists. eexists. reflexivity.
Qed.

(** Whatever the body of the [try] block does, [predict] completes. *)
Lemma predict_completes (data : LightCurveData) (s : State) :
  exists p s', predict libm tf_load data s = (Normal p, s').
Proof.
  unfold predict, try_catch.
  destruct (predict_body libm tf_load data s) as [[p | e] s'].
  - exists p, s'. reflexivity.
  - apply getMockPrediction_completes.
Qed.

Lemma loadModel_loaded (s : State) :
  isModelLoaded s = true -> loadModel tf_load s = (Normal tt, s).
Proof. intros H. unfold loadModel. rewrite H. reflexivity. Qed.

(** When the features can be computed, so can the statistics of the
    result: both need a flux array that is not empty. *)
Lemma preprocess_deviation (data : LightCurveData) (features : list float) :
  preprocessLightCurve libm data = Normal features ->
  exists d,
    deviation libm (flux data)
      (sum (flux data) / number_of (List.length (flux data))) = Normal d.
Proof.
  unfold preprocessLightCurve.
  destruct (deviation libm (flux data)
              (sum (flux data) / number_of (List.length (flux data)))) as [d | e].
  - intros _. exists d. reflexivity.
  - discriminate.
Qed.

(** The features cannot be computed from arrays the engine cannot spread. *)
Lemma preprocess_within_limit (data : LightCurveData) (features : list float) :
  preprocessLightCurve libm data = Normal features ->
  (List.length (flux data) <= argument_limit)%nat /\
  (List.length (time data) <= argument_limit)%nat.
Proof.
  unfold preprocessLightCurve.
  destruct (deviation libm (flux data)
              (sum (flux data) / number_of (List.length (flux data)))) as [d | e];
    cbn [and_then]; [| discriminate].
  destruct (spread_cases Binary64.Math_min (flux data)) as [[Hf ->] | [_ ->]];
    cbn [and_then]; [| discriminate].
  rewrite (spread_within Binary64.Math_max (flux data) Hf). cbn [and_then].
  destruct (spread_cases Binary64.Math_max (time data)) as [[Ht ->] | [_ ->]];
    cbn [and_then]; [| discriminate].
  intros _. split; assumption.
Qed.

End Facts.

(** C7, refuted as stated.  With a scorer that throws, [predict] completes
    with the mock prediction (probability 0.7 + 0.5 * 0.25 when
    [Math.random] answers 0.5); with a scorer that returns NaN, it
    completes with NaN as the probability.  In neither case does the
    caller see a failure. *)
Lemma scorer_failure_is_not_surfaced :
  (forall engine libm tf_load, exists p s',
      predict (engine := engine) libm tf_load two_samples
        (service_with (Throw "inference failed"))
      = (Normal p, s') /\
      probability p = 0.825 /\ planetType p = "Terrestrial"%string) /\
  (forall engine libm tf_load, exists p s',
      predict (engine := engine) libm tf_load two_samples (service_with (Normal nan))
      = (Normal p, s') /\
      Binary64.isNaN (probability p) = true /\ planetType p = "Gas Giant"%string).
Proof.
  split; intros engine libm tf_load; eexists; eexists; vm_compute; repeat split.
Qed.

(** C7, as amended.  [predict] never fails.  When the loaded scorer throws,
    the error is caught and the result is the mock prediction; when it
    returns a number, that number becomes the probability of the result
    without any check, so a NaN or an out-of-range score is passed on to
    the caller as it is. *)
Theorem predict_never_fails {engine : Engine} (libm : Binary64.Libm)
    (tf_load : completion TFModel) (data : LightCurveData) (s : State) :
  (exists p s', predict libm tf_load data s = (Normal p, s')) /\
  (forall scorer features e,
      isModelLoaded s = true -> model s = Some scorer ->
      preprocessLightCurve libm data = Normal features ->
      scorer features = Throw e ->
      predict libm tf_load data s = getMockPrediction data s) /\
  (forall scorer features q,
      isModelLoaded s = true -> model s = Some scorer ->
      preprocessLightCurve libm data = Normal features ->
      scorer features = Normal q ->
      exists p,
        predict libm tf_load data s = (Normal p, s) /\
        probability p = q /\
        confidence p = Binary64.min2 (q * 1.2) 1.0).
Proof.
  split; [apply predict_completes |].
  split.
  - intros scorer features e Hloaded Hmodel Hfeat Hthrow.
    unfold predict, try_catch, predict_body, bind, lift.
    rewrite (loadModel_loaded tf_load s Hloaded), Hfeat, Hmodel, Hthrow.
    reflexivity.
  - intros scorer features q Hloaded Hmodel Hfeat Hscore.
    destruct (preprocess_deviation libm data Hfeat) as [d Hd].
    destruct (preprocess_within_limit libm data Hfeat) as [Hflux Htime].
    unfold predict, try_catch, predict_body, bind, lift, ret.
    rewrite (loadModel_loaded tf_load s Hloaded), Hfeat, Hmodel, Hscore.
    rewrite !spread_within by assumption. rewrite Hd.
    eexists. split; [reflexivity |]. split; reflexivity.
Qed.

(** A loaded scorer that answers NaN on the two-sample light curve. *)
Lemma predict_never_fails_witness :
  exists p,
    predict (engine := smallest_engine) unused_libm (Throw "no model") two_samples
      (service_with (Normal nan))
    = (Normal p, service_with (Normal nan)) /\
    probability p = nan /\
    confidence p = Binary64.min2 (nan * 1.2) 1.0.
Proof.
  destruct (predict_never_fails (engine := smallest_engine) unused_libm
              (Throw "no model") two_samples
              (service_with (Normal nan))) as (_ & _ & Hscore).
  eapply Hscore.
  - reflexivity.
  - reflexivity.
  - vm_compute. reflexivity.
  - reflexivity.
Defined.

End ScorerFacts.


(** ** More on the parser: results, failures, comments *)

Module ParserResults.
Import JsString Global Runtime DataParser ParserSpec ResultSpec JsStringFacts EngineFacts ParserFacts ParserEdgeCases.
Local Open Scope string_scope.
Local Open Scope list_scope.

Lemma error_or_undefined_length (cols : Columns) :
  aligned cols ->
  match error_or_undefined (c_error cols) with
  | Some e => (List.length e <= List.length (c_time cols))%nat
  | None => True
  end.
Proof.
  intros [_ H]. destruct (c_error cols); cbn [error_or_undefined]; [exact I | exact H].
Qed.

Lemma length_Z_nonempty {A : Type} (l : list A) (n : Z) :
  length_Z l = n -> (0 < n)%Z -> l <> [].
Proof. intros H Hn Hnil. rewrite Hnil in H. cbn in H. lia. Qed.

Lemma length_Z_eq {A B : Type} (l : list A) (l' : list B) (n : Z) :
  length_Z l = n -> length_Z l' = n -> List.length l = List.length l'.
Proof. unfold length_Z. intros H H'. lia. Qed.

Lemma length_Z_le {A B : Type} (l : list A) (l' : list B) (n : Z) :
  length_Z l = n -> length_Z l' = n -> (List.length l <= List.length l')%nat.
Proof. unfold length_Z. intros H H'. lia. Qed.

Lemma mock_well_formed (g : RNG) :
  well_formed (fst (generateMockLightCurve g)) /\
  time (fst (generateMockLightCurve g)) <> [].
Proof.
  destruct (mock_light_curve_length g) as (Ht & Hf & e & He & Hel).
  revert Ht Hf He. generalize (fst (generateMockLightCurve g)) as m.
  intros m Ht Hf He. split.
  - unfold well_formed. rewrite He. split.
    + eapply length_Z_eq; eassumption.
    + eapply length_Z_le; eassumption.
  - eapply length_Z_nonempty; [exact Ht | lia].
Qed.

Lemma parse_row_count (ti fi ei : Z) (raw : string) (acc : Columns) :
  (List.length (c_time (parse_row ti fi ei raw acc)) <= S (List.length (c_time acc)))%nat.
Proof.
  unfold parse_row.
  repeat match goal with
         | |- context [if ?c then _ else _] => destruct c
         end;
    cbn [c_time]; rewrite ?length_app; cbn [List.length]; lia.
Qed.

(** No more rows parse than there are lines after the header. *)
Lemma parse_rows_count (ti fi ei : Z) (lines : list string) :
  (List.length (c_time (parse_rows ti fi ei lines)) <= List.length (tl lines))%nat.
Proof.
  unfold parse_rows.
  assert (Hgen : forall rest acc,
            (List.length (c_time (fold_left (fun acc raw => parse_row ti fi ei raw acc)
                                            rest acc))
             <= List.length (c_time acc) + List.length rest)%nat).
  { induction rest as [| raw rest IH]; intros acc; cbn [fold_left List.length]; [lia |].
    specialize (IH (parse_row ti fi ei raw acc)).
    assert (H1 := parse_row_count ti fi ei raw acc). lia. }
  specialize (Hgen (tl lines) no_columns). cbn [no_columns c_time List.length] in Hgen.
  exact Hgen.
Qed.

Lemma is_comment_or_blank_line (raw : string) :
  is_comment_or_blank (trim raw) = comment_or_blank_line raw.
Proof.
  unfold is_comment_or_blank, comment_or_blank_line.
  destruct (trim raw) as [| c s]; [reflexivity |].
  cbn [is_empty orb]. unfold startsWith.
  destruct s; rewrite !andb_true_r, (Ascii.eqb_sym "#" c), (Ascii.eqb_sym "%" c); reflexivity.
Qed.

Section WithEngine.
Context {engine : Engine}.

(** The three outcomes of [parseCSVDataWithIndices], by the rows that
    parse: none, more than the engine can spread, or some. *)
Lemma parseCSVDataWithIndices_cases (content : string) (ti fi ei : Z) (g : RNG) :
  (c_time (parse_rows ti fi ei (split "010" (trim content))) = [] ->
   parseCSVDataWithIndices content ti fi ei g
   = (Normal (fst (generateMockLightCurve g)), snd (generateMockLightCurve g))) /\
  ((argument_limit < List.length (c_time (parse_rows ti fi ei (split "010" (trim content)))))%nat ->
   parseCSVDataWithIndices content ti fi ei g
   = (Throw "RangeError: Maximum call stack size exceeded", g)) /\
  (c_time (parse_rows ti fi ei (split "010" (trim content))) <> [] -> (List.length (c_time (parse_rows ti fi ei (split "010" (trim content)))) <= argument_limit)%nat ->
   parseCSVDataWithIndices content ti fi ei g
   = (Normal {| time := c_time (parse_rows ti fi ei (split "010" (trim content)));
                flux := c_flux (parse_rows ti fi ei (split "010" (trim content)));
                error := error_or_undefined (c_error (parse_rows ti fi ei (split "010" (trim content))));
                metadata :=
                  {| source := detectDataSource (header_of (split "010" (trim content)));
                     targetId := extractTargetId content;
                     campaign := None; sector := None |} |}, g)).
Proof.
  set (rows := parse_rows ti fi ei (split "010" (trim content))).
  assert (Hal : aligned rows) by apply parse_rows_aligned.
  destruct Hal as [Htf _].
  repeat apply conj.
  - apply two_column_fallback.
  - intros Hlong. unfold parseCSVDataWithIndices. fold rows.
    rewrite data_statistics_beyond by exact Hlong.
    destruct (c_time rows); [cbn [List.length] in Hlong; lia | reflexivity].
  - intros Hsome Hshort. unfold parseCSVDataWithIndices. fold rows.
    rewrite data_statistics_within by (rewrite <- ?Htf; exact Hshort).
    destruct (c_time rows); [contradiction | reflexivity].
Qed.

Lemma parseCSVDataWithIndices_outcome (content : string) (ti fi ei : Z) :
  (c_time (parse_rows ti fi ei (split "010" (trim content))) = [] \/
   (argument_limit < List.length (c_time (parse_rows ti fi ei (split "010" (trim content)))))%nat \/
   (c_time (parse_rows ti fi ei (split "010" (trim content))) <> [] /\ (List.length (c_time (parse_rows ti fi ei (split "010" (trim content)))) <= argument_limit)%nat)).
Proof.
  destruct (c_time (parse_rows ti fi ei (split "010" (trim content)))) as [| t ts] eqn:E;
    [left; reflexivity | right].
  destruct (Nat.le_gt_cases (List.length (t :: ts)) argument_limit) as [H | H].
  - right. split; [discriminate | exact H].
  - left. exact H.
Qed.

Lemma parseCSVDataWithIndices_well_formed (content : string) (ti fi ei : Z)
    (g g' : RNG) (lc : ParsedLightCurve) :
  parseCSVDataWithIndices content ti fi ei g = (Normal lc, g') ->
  well_formed lc /\ time lc <> [].
Proof.
  destruct (parseCSVDataWithIndices_cases content ti fi ei g) as (Hnone & Hlong & Hsome).
  assert (Hal : aligned (parse_rows ti fi ei (split "010" (trim content))))
    by apply parse_rows_aligned.
  destruct (parseCSVDataWithIndices_outcome content ti fi ei) as [H | [H | [H H']]].
  - rewrite (Hnone H). intros E. apply normal_result_inj in E as [<- _]. apply mock_well_formed.
  - rewrite (Hlong H). discriminate.
  - rewrite (Hsome H H'). intros E. apply normal_result_inj in E as [<- _].
    cbn [time]. split; [| exact H].
    unfold well_formed. cbn [time flux error].
    split; [apply Hal | apply error_or_undefined_length, Hal].
Qed.

(** Whatever the text, a result of [parseCSVData] has time and flux arrays
    of one length, and an error array, when there is one, that is not
    longer. *)
Theorem parseCSVData_well_formed (content : string) (g g' : RNG) (lc : ParsedLightCurve) :
  parseCSVData content g = (Normal lc, g') -> well_formed lc.
Proof.
  unfold parseCSVData.
  set (headers := header_of (split "010" (trim content))).
  destruct (5 <? List.length headers)%nat.
  - intros H. apply normal_result_inj in H as [<- _].
    unfold parseKeplerKOIData, well_formed. cbn [time flux error].
    match goal with
    | |- context [parse_rows ?a ?b ?c ?l] =>
        assert (Hal : aligned (parse_rows a b c l)) by apply parse_rows_aligned
    end.
    split; [apply Hal | apply error_or_undefined_length, Hal].
  - destruct ((findIndex time_header headers =? -1)%Z
              || (findIndex flux_header headers =? -1)%Z).
    + destruct (2 <=? List.length headers)%nat; [| discriminate].
      intros H. eapply parseCSVDataWithIndices_well_formed. exact H.
    + intros H. eapply parseCSVDataWithIndices_well_formed. exact H.
Qed.

Lemma parseTextData_well_formed (text : string) : well_formed (parseTextData text).
Proof.
  unfold parseTextData, well_formed. cbn [time flux error].
  match goal with
  | |- context [fold_left ?f ?l no_columns] =>
      assert (Hal : aligned (fold_left f l no_columns))
  end.
  { apply fold_aligned; [| exact no_columns_aligned].
    intros acc raw. apply parse_text_line_aligned. }
  split; [apply Hal | apply error_or_undefined_length, Hal].
Qed.

(** The same for the upload dispatch: whichever parser a file name selects,
    and whatever the file holds, a light curve that comes back is well
    formed. *)
Theorem parseFileData_well_formed (name : string) (content : FileUpload.FileContent)
    (g g' : RNG) (lc : ParsedLightCurve) :
  FileUpload.parseFileData name content g = (Normal lc, g') -> well_formed lc.
Proof.
  unfold FileUpload.parseFileData.
  destruct (FileUpload.endsWith (toLowerCase name) ".csv").
  - destruct content as [s | b]; [apply parseCSVData_well_formed | discriminate].
  - destruct (FileUpload.endsWith (toLowerCase name) ".fits").
    + change (parseFITSData g) with (generateMockLightCurve g).
      destruct (generateMockLightCurve g) as [lc0 g0] eqn:Hm.
      intros H. apply normal_result_inj in H as [<- _].
      change lc0 with (fst (lc0, g0)). rewrite <- Hm. apply mock_well_formed.
    + destruct content as [s | b]; [| discriminate].
      intros H. apply normal_result_inj in H as [<- _]. apply parseTextData_well_formed.
Qed.

Lemma findIndex_single {A : Type} (p : A -> bool) (x : A) :
  findIndex p [x] = if p x then 0%Z else (-1)%Z.
Proof. unfold findIndex. cbn [findIndex_from]. destruct (p x); reflexivity. Qed.

(** With a table of at most five columns [parseCSVData] is
    [parseCSVDataWithIndices] on the chosen columns, unless the header is a
    single token that is not both a time and a flux word. *)
Lemma parseCSVData_narrow (content : string) (g : RNG) :
  let lines := split "010" (trim content) in
  (List.length (header_of lines) <= 5)%nat ->
  ((2 <= List.length (header_of lines))%nat \/
   exists h, header_of lines = [h] /\ time_header h && flux_header h = true) ->
  exists ti fi ei,
    parseCSVData content g = parseCSVDataWithIndices content ti fi ei g /\
    chosen_rows lines = parse_rows ti fi ei lines.
Proof.
  intros lines Hnarrow Hheader. unfold parseCSVData, chosen_rows. fold lines.
  apply Nat.ltb_ge in Hnarrow. rewrite Hnarrow.
  destruct ((findIndex time_header (header_of lines) =? -1)%Z
            || (findIndex flux_header (header_of lines) =? -1)%Z) eqn:Hmiss.
  - destruct Hheader as [H2 | (h & Hh & Hboth)].
    + apply Nat.leb_le in H2. rewrite H2.
      exists 0%Z, 1%Z, 2%Z. split; reflexivity.
    + rewrite Hh, !findIndex_single in Hmiss.
      apply andb_true_iff in Hboth as [Ht Hf]. rewrite Ht, Hf in Hmiss.
      discriminate Hmiss.
  - eexists. eexists. eexists. split; reflexivity.
Qed.

(** The failures of [parseCSVData].  A header of one token that is not both
    a time and a flux word is refused with a message that names it.  Any
    other table of at most five columns is parsed unless more rows parse
    than the engine accepts arguments, which takes more data lines than
    that: then, and only then, the call ends in the RangeError of the logged
    statistics.  A Kepler table with more rows than the limit is such a
    text. *)
Theorem parseCSVData_failures (content : string) (g : RNG) :
  let lines := split "010" (trim content) in
  let headers := header_of lines in
  (forall h, headers = [h] -> time_header h && flux_header h = false ->
     parseCSVData content g
     = (Throw ("Invalid CSV format: missing time or flux columns. Found headers: " ++ h)%string,
        g)) /\
  ((2 <= List.length headers)%nat \/
   (exists h, headers = [h] /\ time_header h && flux_header h = true) ->
   ((List.length (c_time (chosen_rows lines)) <= argument_limit)%nat \/
    (5 < List.length headers)%nat ->
    exists lc g', parseCSVData content g = (Normal lc, g')) /\
   ((List.length headers <= 5)%nat ->
    (argument_limit < List.length (c_time (chosen_rows lines)))%nat ->
    parseCSVData content g = (Throw "RangeError: Maximum call stack size exceeded", g)) /\
   ((List.length lines <= S argument_limit)%nat ->
    exists lc g', parseCSVData content g = (Normal lc, g'))) /\
  (forall rows trailer,
     Forall (numeric_row 4) rows -> all_chars is_whitespace trailer = true ->
     (argument_limit < List.length rows)%nat ->
     parseCSVData (csv_text kepler_header rows ++ trailer) g
     = (Throw "RangeError: Maximum call stack size exceeded", g)).
Proof.
  intros lines headers.
  assert (Hwide : (5 < List.length headers)%nat ->
                  exists lc g', parseCSVData content g = (Normal lc, g')).
  { intros H. unfold parseCSVData. fold lines. fold headers.
    apply Nat.ltb_lt in H. rewrite H. eexists. eexists. reflexivity. }
  assert (Hshort : (2 <= List.length headers)%nat \/
                   (exists h, headers = [h] /\ time_header h && flux_header h = true) ->
                   (List.length headers <= 5)%nat ->
                   (List.length (c_time (chosen_rows lines)) <= argument_limit)%nat ->
                   exists lc g', parseCSVData content g = (Normal lc, g')).
  { intros Hheader Hnarrow Hfew.
    destruct (parseCSVData_narrow content g Hnarrow Hheader) as (ti & fi & ei & -> & Hrows).
    fold lines in Hrows. rewrite Hrows in Hfew.
    destruct (parseCSVDataWithIndices_cases content ti fi ei g) as (Hnone & _ & Hsome).
    fold lines in Hnone, Hsome.
    destruct (c_time (parse_rows ti fi ei lines)) as [| t ts] eqn:E.
    - rewrite Hnone by reflexivity. eexists. eexists. reflexivity.
    - rewrite Hsome by (discriminate || exact Hfew). eexists. eexists. reflexivity. }
  repeat apply conj.
  - intros h Hh Hmiss. unfold parseCSVData. fold lines. fold headers.
    rewrite Hh. cbn [List.length Nat.ltb Nat.leb join].
    rewrite !findIndex_single.
    destruct (time_header h), (flux_header h); try discriminate Hmiss; reflexivity.
  - intros Hheader. repeat apply conj.
    + intros [Hfew | H5]; [| exact (Hwide H5)].
      destruct (Nat.le_gt_cases (List.length headers) 5) as [Hnarrow | H5];
        [exact (Hshort Hheader Hnarrow Hfew) | exact (Hwide H5)].
    + intros Hnarrow Hmany.
      destruct (parseCSVData_narrow content g Hnarrow Hheader) as (ti & fi & ei & -> & Hrows).
      fold lines in Hrows. rewrite Hrows in Hmany.
      destruct (parseCSVDataWithIndices_cases content ti fi ei g) as (_ & Hlong & _).
      apply Hlong. exact Hmany.
    + intros Hlines.
      destruct (Nat.le_gt_cases (List.length headers) 5) as [Hnarrow | H5];
        [| exact (Hwide H5)].
      apply (Hshort Hheader Hnarrow).
      destruct (parseCSVData_narrow content g Hnarrow Hheader) as (ti & fi & ei & _ & Hrows).
      fold lines in Hrows. rewrite Hrows.
      assert (Hcount := parse_rows_count ti fi ei lines).
      assert (Htl : (List.length (tl lines) <= argument_limit)%nat)
        by (destruct lines; cbn [tl List.length] in *; lia).
      lia.
  - intros rows trailer Hrows Htrailer Hmany. unfold parseCSVData.
    rewrite kepler_lines by assumption.
    replace (header_of (csv_line kepler_header :: map csv_line rows))
      with ["kic"; "time"; "pdcsap_flux"; "flux_err"] by (vm_compute; reflexivity).
    replace (findIndex time_header ["kic"; "time"; "pdcsap_flux"; "flux_err"])
      with 1%Z by (vm_compute; reflexivity).
    replace (findIndex flux_header ["kic"; "time"; "pdcsap_flux"; "flux_err"])
      with 2%Z by (vm_compute; reflexivity).
    replace (findIndex error_header ["kic"; "time"; "pdcsap_flux"; "flux_err"])
      with 3%Z by (vm_compute; reflexivity).
    cbn [List.length Nat.ltb Nat.leb Z.eqb orb].
    apply parseCSVDataWithIndices_kepler_beyond; assumption.
Qed.

(** A table of at most five columns never comes back empty.  When rows
    parse for the chosen columns, the light curve holds exactly those rows
    and no random number is drawn; when none parses, it is the mock light
    curve: 50000 generated samples, labelled kepler and mock_target. *)
Theorem narrow_table_never_empty (content : string) (g g' : RNG) (lc : ParsedLightCurve) :
  let lines := split "010" (trim content) in
  (List.length (header_of lines) <= 5)%nat ->
  parseCSVData content g = (Normal lc, g') ->
  time lc <> [] /\
  (c_time (chosen_rows lines) <> [] ->
   time lc = c_time (chosen_rows lines) /\
   flux lc = c_flux (chosen_rows lines) /\
   error lc = error_or_undefined (c_error (chosen_rows lines)) /\
   g' = g) /\
  (c_time (chosen_rows lines) = [] ->
   lc = fst (generateMockLightCurve g) /\ g' = snd (generateMockLightCurve g) /\
   length_Z (time lc) = 50000%Z /\ length_Z (flux lc) = 50000%Z /\
   source (metadata lc) = kepler /\ targetId (metadata lc) = Some "mock_target").
Proof.
  intros lines Hnarrow Hparse.
  assert (Hheader : (2 <= List.length (header_of lines))%nat \/
                    exists h, header_of lines = [h] /\ time_header h && flux_header h = true).
  { destruct (header_of lines) as [| h [| h' hs]] eqn:Hh.
    - exfalso. revert Hparse. unfold parseCSVData. fold lines. rewrite Hh.
      unfold findIndex. cbn [List.length Nat.ltb Nat.leb findIndex_from Z.eqb orb].
      discriminate.
    - destruct (time_header h && flux_header h) eqn:Hboth.
      + right. exists h. split; [reflexivity | exact Hboth].
      + exfalso. revert Hparse. unfold parseCSVData. fold lines. rewrite Hh.
        cbn [List.length Nat.ltb Nat.leb]. rewrite !findIndex_single.
        destruct (time_header h), (flux_header h); try discriminate Hboth; discriminate.
    - left. cbn [List.length]. lia. }
  destruct (parseCSVData_narrow content g Hnarrow Hheader) as (ti & fi & ei & Hcall & Hrows).
  fold lines in Hrows. rewrite Hrows. rewrite Hcall in Hparse.
  destruct (parseCSVDataWithIndices_well_formed _ _ _ _ _ Hparse) as [_ Hne].
  split; [exact Hne |].
  destruct (parseCSVDataWithIndices_cases content ti fi ei g) as (Hnone & Hlong & Hsome).
  fold lines in Hnone, Hlong, Hsome.
  destruct (parseCSVDataWithIndices_outcome content ti fi ei) as [H | [H | [H H']]];
    fold lines in H.
  - rewrite (Hnone H) in Hparse. apply normal_result_inj in Hparse as [<- <-].
    split; [intros Hc; contradiction |]. intros _.
    destruct (mock_light_curve_length g) as (Ht & Hf & _).
    split; [reflexivity |]. split; [reflexivity |].
    split; [exact Ht |]. split; [exact Hf |].
    unfold generateMockLightCurve. cbn [fst metadata source targetId].
    split; reflexivity.
  - rewrite (Hlong H) in Hparse. discriminate Hparse.
  - fold lines in H'. rewrite (Hsome H H') in Hparse. apply normal_result_inj in Hparse as [<- <-].
    split; [| intros Hc; contradiction].
    intros _. repeat apply conj; reflexivity.
Qed.

(** A line that is blank, or whose first character that is not white space
    is # or %, adds nothing to the arrays: the row loop gives the same
    arrays with or without such lines, whichever columns it reads. *)
Theorem comment_lines_are_skipped (ti fi ei : Z) (header : string) (rows : list string) :
  parse_rows ti fi ei (header :: rows)
  = parse_rows ti fi ei
      (header :: filter (fun raw => negb (comment_or_blank_line raw)) rows).
Proof.
  unfold parse_rows. cbn [tl]. generalize no_columns.
  induction rows as [| raw rows IH]; intros acc; [reflexivity |].
  cbn [filter fold_left].
  destruct (comment_or_blank_line raw) eqn:Hc; cbn [negb].
  - unfold parse_row at 2. rewrite is_comment_or_blank_line, Hc. apply IH.
  - cbn [fold_left]. apply IH.
Qed.

(** The wide-table path always completes, draws no random number and calls
    the source kepler, whatever mission the header names. *)
Theorem wide_table_is_labelled_kepler (content : string) (g : RNG) :
  (5 < List.length (header_of (split "010" (trim content))))%nat ->
  exists lc : ParsedLightCurve,
    parseCSVData content g = (Normal lc, g) /\
    source (metadata lc) = kepler /\
    targetId (metadata lc) = extractTargetId content.
Proof.
  intros Hwide. unfold parseCSVData.
  apply Nat.ltb_lt in Hwide. rewrite Hwide.
  eexists. repeat apply conj; reflexivity.
Qed.

End WithEngine.

(** A short table, parsed. *)
Lemma parseFileData_well_formed_witness :
  well_formed
    {| time := [1; 2]%float; flux := [2; 3]%float; error := Some [Binary64.of_Q 0.1];
       metadata := {| source := unknown; targetId := None;
                      campaign := None; sector := None |} |}.
Proof.
  apply (@parseFileData_well_formed smallest_engine "curve.CSV"
           (FileUpload.Text (csv_text ["time"; "flux"; "error"]
                                      [["1"; "2"; "0.1"]; ["2"; "3"]]))
           constant_rng constant_rng).
  vm_compute. reflexivity.
Defined.

(** The header "flux" alone: a flux word, but no time word in it. *)
Lemma parseCSVData_failures_witness :
  parseCSVData (engine := smallest_engine) (csv_text ["flux"] [["1.0"]]) constant_rng
  = (Throw "Invalid CSV format: missing time or flux columns. Found headers: flux",
     constant_rng).
Proof.
  apply (proj1 (parseCSVData_failures (engine := smallest_engine)
                  (csv_text ["flux"] [["1.0"]]) constant_rng) "flux").
  - vm_compute. reflexivity.
  - vm_compute. reflexivity.
Defined.

(** A two-column table with one row. *)
Lemma narrow_table_never_empty_witness :
  [1%float] <> [] /\
  (c_time (chosen_rows (split "010" (trim (csv_text ["time"; "flux"] [["1"; "2"]])))) <> [] ->
   [1%float] = c_time (chosen_rows (split "010" (trim (csv_text ["time"; "flux"] [["1"; "2"]])))) /\
   [2%float] = c_flux (chosen_rows (split "010" (trim (csv_text ["time"; "flux"] [["1"; "2"]])))) /\
   None = error_or_undefined
            (c_error (chosen_rows (split "010" (trim (csv_text ["time"; "flux"] [["1"; "2"]]))))) /\
   constant_rng = constant_rng).
Proof.
  refine (let H := @narrow_table_never_empty smallest_engine
                     (csv_text ["time"; "flux"] [["1"; "2"]])
                     constant_rng constant_rng
                     {| time := [1%float]; flux := [2%float]; error := None;
                        metadata := {| source := unknown; targetId := None;
                                       campaign := None; sector := None |} |} _ _ in
          conj (proj1 H) (proj1 (proj2 H))).
  - vm_compute. lia.
  - vm_compute. reflexivity.
Defined.

(** A TESS table of six columns: [detectDataSource] would say tess. *)
Lemma wide_table_is_labelled_kepler_witness :
  detectDataSource ["tic"; "time"; "flux"; "flux_err"; "sector"; "camera"] = tess /\
  exists lc : ParsedLightCurve,
    parseCSVData (engine := smallest_engine)
                 (csv_text ["TIC"; "TIME"; "FLUX"; "FLUX_ERR"; "SECTOR"; "CAMERA"]
                           [["307210830"; "1354.1"; "0.9991"; "0.0004"; "2"; "4"]])
                 constant_rng
    = (Normal lc, constant_rng) /\
    source (metadata lc) = kepler /\
    targetId (metadata lc)
    = extractTargetId
        (csv_text ["TIC"; "TIME"; "FLUX"; "FLUX_ERR"; "SECTOR"; "CAMERA"]
                  [["307210830"; "1354.1"; "0.9991"; "0.0004"; "2"; "4"]]).
Proof.
  split; [vm_compute; reflexivity |].
  apply wide_table_is_labelled_kepler. vm_compute. lia.
Defined.

End ParserResults.

(** ** Target identifiers *)

Module TargetIdFacts.
Import JsString Global Runtime DataParser ParserSpec ResultSpec JsStringFacts.
Local Open Scope string_scope.
Local Open Scope list_scope.

Lemma take_digits_prefix (s : string) :
  let ds := fst (take_digits s) in
  digits_only (substring 0 (List.length ds) s) = true /\
  String.length (substring 0 (List.length ds) s) = List.length ds.
Proof.
  induction s as [| c s IH]; cbn [take_digits]; [split; reflexivity |].
  destruct (digit_of c) as [d |] eqn:Hd.
  - destruct (take_digits s) as [ds rest]. cbn [fst List.length substring] in *.
    destruct IH as [IH1 IH2]. split.
    + unfold digits_only in *. cbn [all_chars]. unfold is_digit at 1. rewrite Hd. exact IH1.
    + cbn [String.length]. rewrite IH2. reflexivity.
  - split; reflexivity.
Qed.

Lemma match_id_tail_digits (s id : string) :
  match_id_tail s = Some id -> digits_only id = true /\ id <> EmptyString.
Proof.
  unfold match_id_tail.
  assert (H := take_digits_prefix (trimStart s)).
  destruct (take_digits (trimStart s)) as [ds rest]. cbn [fst] in H.
  destruct ds as [| d ds]; [discriminate |].
  cbn [List.length] in H. destruct H as [H1 H2].
  intros Hid. injection Hid as <-.
  split; [exact H1 |].
  intros Hempty. rewrite Hempty in H2. discriminate H2.
Qed.

(** An identifier that [extractTargetId] returns is a string of decimal
    digits, and not the empty string. *)
Theorem extractTargetId_digits (content id : string) :
  extractTargetId content = Some id -> digits_only id = true /\ id <> EmptyString.
Proof.
  induction content as [| c content IH]; cbn [extractTargetId].
  - repeat match goal with
           | |- context [match ?x with Some _ => _ | None => _ end] =>
               destruct x eqn:?
           | |- context [if ?b then _ else _] => destruct b eqn:?
           end; try discriminate;
    intros H; injection H as <-; eapply match_id_tail_digits; eassumption.
  - repeat match goal with
           | |- context [match (if ?b then ?m else None) with _ => _ end] =>
               destruct b eqn:?
           | |- context [match match_id_tail ?x with Some _ => _ | None => _ end] =>
               let E := fresh "E" in destruct (match_id_tail x) eqn:E
           end; try exact IH;
    intros H; injection H as <-; eapply match_id_tail_digits; eassumption.
Qed.

(** "KIC 8462852" inside a header comment. *)
Lemma extractTargetId_digits_witness :
  digits_only "8462852" = true /\ "8462852" <> EmptyString.
Proof.
  apply (@extractTargetId_digits "# target: KIC 8462852 (Q1)" "8462852").
  vm_compute. reflexivity.
Defined.

Lemma substring_all (s : string) : substring 0 (String.length s) s = s.
Proof. induction s as [| c s IH]; cbn [String.length substring]; [| rewrite IH]; reflexivity. Qed.

Lemma take_digits_app (d rest : string) :
  digits_only d = true -> no_leading_digit rest = true ->
  List.length (fst (take_digits (d ++ rest))) = String.length d.
Proof.
  intros Hd Hrest. induction d as [| c d IH]; cbn [append take_digits String.length].
  - destruct rest as [| r rest]; [reflexivity |].
    cbn [take_digits no_leading_digit] in *. unfold is_digit in Hrest.
    destruct (digit_of r); [discriminate Hrest | reflexivity].
  - unfold digits_only in Hd. cbn [all_chars] in Hd.
    apply andb_true_iff in Hd as [Hc Hd]. unfold is_digit in Hc.
    destruct (digit_of c); [| discriminate Hc].
    destruct (take_digits (d ++ rest)) as [ds r] eqn:Ht.
    cbn [fst List.length] in *. rewrite (IH Hd). reflexivity.
Qed.

Lemma substring_prefix (d rest : string) :
  substring 0 (String.length d) (d ++ rest) = d.
Proof.
  induction d as [| c d IH]; cbn [String.length append substring].
  - destruct rest; reflexivity.
  - rewrite IH. reflexivity.
Qed.

Lemma trimStart_blank_prefix (ws s : string) :
  all_chars is_whitespace ws = true -> trimStart (ws ++ s) = trimStart s.
Proof.
  intros Hws. induction ws as [| c ws IH]; cbn [append trimStart]; [reflexivity |].
  cbn [all_chars] in Hws. apply andb_true_iff in Hws as [Hc Hws].
  rewrite Hc. apply IH, Hws.
Qed.

Lemma digit_not_whitespace (c : ascii) : is_digit c = true -> is_whitespace c = false.
Proof.
  unfold is_digit, digit_of, is_whitespace.
  destruct ((48 <=? code c)%nat && (code c <=? 57)%nat) eqn:H; [| discriminate].
  intros _. apply andb_true_iff in H as [H1 H2].
  apply Nat.leb_le in H1. apply Nat.leb_le in H2.
  destruct (Nat.leb_spec 9 (code c)), (Nat.leb_spec (code c) 13),
    (Nat.eqb_spec (code c) 32), (Nat.eqb_spec (code c) 160);
    cbn [andb orb]; try reflexivity; lia.
Qed.

Lemma match_id_tail_after_blank (ws d rest : string) :
  all_chars is_whitespace ws = true ->
  digits_only d = true -> d <> EmptyString -> no_leading_digit rest = true ->
  match_id_tail (ws ++ d ++ rest) = Some d.
Proof.
  intros Hws Hd Hne Hrest. unfold match_id_tail.
  rewrite trimStart_blank_prefix by exact Hws.
  assert (Hstart : trimStart (d ++ rest) = (d ++ rest)%string).
  { destruct d as [| c d]; [contradiction |].
    unfold digits_only in Hd. cbn [all_chars] in Hd.
    apply andb_true_iff in Hd as [Hc _].
    cbn [append trimStart]. rewrite (@digit_not_whitespace c Hc). reflexivity. }
  rewrite Hstart.
  assert (Hlen := @take_digits_app d rest Hd Hrest).
  destruct (take_digits (d ++ rest)) as [ds r]. cbn [fst] in Hlen.
  destruct ds as [| x ds].
  - destruct d; [contradiction | discriminate Hlen].
  - rewrite Hlen, substring_prefix. reflexivity.
Qed.

Lemma substring_0_0 (s : string) : substring 0 0 s = EmptyString.
Proof. destruct s; reflexivity. Qed.

Ltac split_tag tag H :=
  repeat (destruct tag as [| ? tag]; cbn [toLowerCase] in H; try discriminate H);
  repeat match type of H with
         | String _ _ = String _ _ => injection H as ? H
         end.

(** A text that starts with KIC, EPIC or TIC in any letter case, then
    optional white space, then digits: the identifier is those digits, up
    to the first character that is not a digit. *)
Theorem extractTargetId_reads_tagged_id (tag ws d rest : string) :
  In (toLowerCase tag) ["kic"; "epic"; "tic"] ->
  all_chars is_whitespace ws = true ->
  digits_only d = true -> d <> EmptyString -> no_leading_digit rest = true ->
  extractTargetId (tag ++ ws ++ d ++ rest) = Some d.
Proof.
  intros Htag Hws Hd Hne Hrest.
  assert (Hid := @match_id_tail_after_blank ws d rest Hws Hd Hne Hrest).
  destruct Htag as [H | [H | [H | []]]]; symmetry in H; split_tag tag H;
    cbn [append extractTargetId String.length substring toLowerCase startsWith Nat.sub];
    repeat match goal with
           | E : lower_char _ = _ |- _ => rewrite E; clear E
           end;
    cbn [Ascii.eqb Bool.eqb andb];
    rewrite ?substring_0_0; cbn [toLowerCase startsWith];
    rewrite ?Nat.sub_0_r, ?substring_all, ?Hid; reflexivity.
Qed.

(** "Kic 8462852b". *)
Lemma extractTargetId_reads_tagged_id_witness :
  extractTargetId ("Kic" ++ " " ++ "8462852" ++ "b") = Some "8462852".
Proof.
  apply extractTargetId_reads_tagged_id.
  - left. reflexivity.
  - reflexivity.
  - reflexivity.
  - discriminate.
  - reflexivity.
Defined.

End TargetIdFacts.

(** ** Binary64 arithmetic on NaN *)

Module Binary64Laws.
Import Binary64.

Lemma Prim2SF_nan : Prim2SF nan = S754_nan.
Proof. reflexivity. Qed.

Lemma SFcompare_refl (x : spec_float) :
  x <> S754_nan -> SFcompare x x = Some Eq.
Proof.
  destruct x as [s | s | | s m e]; intros Hx; try contradiction;
    cbn [SFcompare]; destruct s; try reflexivity;
    rewrite Z.compare_refl, ?Pos.compare_cont_refl, ?Pos.compare_refl; reflexivity.
Qed.

(** There is one NaN. *)
Lemma isNaN_eq (x : float) : isNaN x = true -> x = nan.
Proof.
  unfold isNaN, PrimFloat.is_nan. rewrite FloatAxioms.eqb_spec. unfold SFeqb.
  intros H. apply Prim2SF_inj. rewrite Prim2SF_nan.
  destruct (Prim2SF x) as [s | s | | s m e] eqn:Hx; try reflexivity;
    rewrite SFcompare_refl in H by discriminate; discriminate H.
Qed.

Lemma ltb_nan_l (x : float) : PrimFloat.ltb nan x = false.
Proof. rewrite FloatAxioms.ltb_spec, Prim2SF_nan. reflexivity. Qed.


Lemma leb_nan_l (x : float) : PrimFloat.leb nan x = false.
Proof. rewrite FloatAxioms.leb_spec, Prim2SF_nan. reflexivity. Qed.

Lemma leb_nan_r (x : float) : PrimFloat.leb x nan = false.
Proof.
  rewrite FloatAxioms.leb_spec, Prim2SF_nan. unfold SFleb, SFcompare.
  destruct (Prim2SF x); reflexivity.
Qed.

Lemma mul_nan_l (x : float) : PrimFloat.mul nan x = nan.
Proof. apply Prim2SF_inj. rewrite FloatAxioms.mul_spec, Prim2SF_nan. reflexivity. Qed.

Lemma mul_nan_r (x : float) : PrimFloat.mul x nan = nan.
Proof.
  apply Prim2SF_inj. rewrite FloatAxioms.mul_spec, Prim2SF_nan.
  unfold SF64mul, SFmul. destruct (Prim2SF x); reflexivity.
Qed.

Lemma div_nan_l (x : float) : PrimFloat.div nan x = nan.
Proof. apply Prim2SF_inj. rewrite FloatAxioms.div_spec, Prim2SF_nan. reflexivity. Qed.

Lemma div_nan_r (x : float) : PrimFloat.div x nan = nan.
Proof.
  apply Prim2SF_inj. rewrite FloatAxioms.div_spec, Prim2SF_nan.
  unfold SF64div, SFdiv. destruct (Prim2SF x); reflexivity.
Qed.

Lemma sub_nan_l (x : float) : PrimFloat.sub nan x = nan.
Proof. apply Prim2SF_inj. rewrite FloatAxioms.sub_spec, Prim2SF_nan. reflexivity. Qed.

Lemma sub_nan_r (x : float) : PrimFloat.sub x nan = nan.
Proof.
  apply Prim2SF_inj. rewrite FloatAxioms.sub_spec, Prim2SF_nan.
  unfold SF64sub, SFsub. destruct (Prim2SF x); reflexivity.
Qed.

Lemma sqrt_nan : PrimFloat.sqrt nan = nan.
Proof. reflexivity. Qed.


End Binary64Laws.

(** ** What the validation accepts *)

Module ValidationFacts.
Import JsString Global Runtime DataParser DataValidation ParserSpec ResultSpec EngineFacts Binary64Laws.
Local Open Scope float_scope.

Section WithEngine.
Context {engine : Engine}.

(** A light curve that passes the validation has samples, and as many flux
    values as times. *)
Theorem validation_requires_samples (data : ParsedLightCurve) :
  validateLightCurveData data = Normal true ->
  time data <> [] /\ List.length (time data) = List.length (flux data).
Proof.
  unfold validateLightCurveData.
  destruct (time data) as [| t ts]; [discriminate |].
  destruct (flux data) as [| f fs]; [discriminate |].
  cbn [List.length Nat.eqb orb].
  destruct (Nat.eqb_spec (List.length ts) (List.length fs)) as [Heq | Hne].
  - intros _. split; [discriminate | rewrite Heq; reflexivity].
  - cbn [negb]. discriminate.
Qed.



End WithEngine.


Lemma validation_requires_samples_witness :
  [0; 1] <> [] /\ List.length [0; 1] = List.length [1; 0.99].
Proof.
  apply (validation_requires_samples (engine := smallest_engine)
           (bare_curve [0; 1] [1; 0.99])).
  vm_compute. reflexivity.
Defined.

End ValidationFacts.

(** ** Laws of the physics formulas in exact arithmetic *)

Module ExactLaws.
Import Exact Physics PhysicsSpec LawSpec ExactFacts ExactPhysics.
Local Open Scope R_scope.
#[local] Existing Instance Exact.number.



















End ExactLaws.

(** ** NaN in the physics service, on binary64 numbers *)

Module Binary64Guards.
Import Binary64 Physics PhysicsSpec Binary64Laws.

Lemma cbrt_nan (m : Libm) : cbrt m nan = nan.
Proof. reflexivity. Qed.

Lemma pow_nan_base (m : Libm) :
  pow m nan (of_Q 4) = nan /\ pow m nan (of_Q 0.25) = nan /\
  pow m nan (of_Q 1.8) = nan /\ pow m nan (of_Q 2.5) = nan /\
  pow m nan (of_Q 3.5) = nan.
Proof. repeat apply conj; vm_compute; reflexivity. Qed.

Ltac nan_arith m :=
  destruct (pow_nan_base m) as (?Hp4 & ?Hp025 & ?Hp18 & ?Hp25 & ?Hp35);
  cbn [lit NaN mul div sub leb ltb Math_sqrt Math_cbrt Math_pow Math_PI
       Binary64.number nullish];
  rewrite ?leb_nan_l, ?ltb_nan_l; cbn [orb];
  repeat match goal with
  | |- context [PrimFloat.leb ?a ?b] => destruct (PrimFloat.leb a b)
  end;
  cbn [orb];
  repeat (rewrite ?mul_nan_l, ?mul_nan_r, ?div_nan_l, ?div_nan_r,
            ?sub_nan_l, ?sub_nan_r, ?sqrt_nan, ?cbrt_nan, ?Hp4, ?Hp025, ?Hp18, ?Hp25, ?Hp35);
  try reflexivity.

(** The guards compare with [<=], which is false on NaN, so a NaN argument
    passes them; every formula still answers NaN, whatever the other
    arguments are and whatever the implementation of [Math.cbrt] and
    [Math.pow]. *)
Theorem nan_argument_gives_nan (m : Libm) (x y : float) (albedo : option float) :
  calculateSemiMajorAxis (N := number m) nan x = nan /\
  calculateSemiMajorAxis (N := number m) x nan = nan /\
  calculateOrbitalPeriod (N := number m) nan x = nan /\
  calculateOrbitalPeriod (N := number m) x nan = nan /\
  calculateStellarLuminosity (N := number m) nan x = nan /\
  calculateStellarLuminosity (N := number m) x nan = nan /\
  calculateEquilibriumTemperature (N := number m) nan x y albedo = nan /\
  calculateEquilibriumTemperature (N := number m) x nan y albedo = nan /\
  calculateEquilibriumTemperature (N := number m) x y nan albedo = nan /\
  calculateHabitableZone (N := number m) nan = {| inner := nan; outer := nan |} /\
  calculateSurfaceGravity (N := number m) nan x = nan /\
  calculateSurfaceGravity (N := number m) x nan = nan /\
  calculateEscapeVelocity (N := number m) nan x = nan /\
  calculateEscapeVelocity (N := number m) x nan = nan /\
  calculateDensity (N := number m) nan x = nan /\
  calculateDensity (N := number m) x nan = nan /\
  estimateMassFromRadius (N := number m) nan = nan.
Proof.
  unfold calculateSemiMajorAxis, calculateOrbitalPeriod, calculateStellarLuminosity,
    calculateEquilibriumTemperature, calculateHabitableZone, calculateSurfaceGravity,
    calculateEscapeVelocity, calculateDensity, estimateMassFromRadius,
    G, M_SUN, AU, R_SUN, SIGMA, L_SUN, M_EARTH, R_EARTH.
  repeat apply conj; nan_arith m.
Qed.

(** [calculate] reports a planet as inside the habitable zone only when the
    star's luminosity is a positive number: with a luminosity that is zero,
    negative or NaN the flag is false, and otherwise the axis lies between
    the two reported edges. *)
Theorem habitable_flag_needs_positive_luminosity
    (m : Libm) (input : PhysicsCalculationInput float) :
  let result := calculate (N := number m) input in
  r_inHabitableZone result = true ->
  PrimFloat.ltb 0 (r_starLuminositySolar result) = true /\
  PrimFloat.leb (r_habitableZoneInnerAU result) (r_semiMajorAxisAU result) = true /\
  PrimFloat.leb (r_semiMajorAxisAU result) (r_habitableZoneOuterAU result) = true.
Proof.
  unfold calculate.
  cbn [r_inHabitableZone r_starLuminositySolar r_habitableZoneInnerAU
       r_semiMajorAxisAU r_habitableZoneOuterAU].
  set (lum := match starLuminositySolar input with
              | Some l => l
              | None => _
              end).
  set (axis := match orbitalPeriodDays input, semiMajorAxisAU input with
               | Some p, None => _
               | _, _ => _
               end).
  unfold calculateHabitableZone.
  cbn [lit NaN mul leb Math_sqrt Binary64.number].
  destruct (PrimFloat.leb lum (of_Q 0)) eqn:Hle; cbn [inner outer].
  - rewrite leb_nan_l. discriminate.
  - intros H. apply andb_prop in H. destruct H as [Hin Hout].
    split; [| split; assumption].
    destruct (isNaN lum) eqn:Hnan.
    + apply isNaN_eq in Hnan. rewrite Hnan, sqrt_nan, mul_nan_r, leb_nan_l in Hin.
      discriminate Hin.
    + revert Hle Hnan. unfold isNaN, PrimFloat.is_nan.
      change (of_Q 0) with 0%float.
      rewrite FloatAxioms.leb_spec, FloatAxioms.ltb_spec, FloatAxioms.eqb_spec.
      change (Prim2SF 0) with (S754_zero false).
      unfold SFleb, SFltb, SFeqb.
      destruct (Prim2SF lum) as [s | s | | s mm e]; cbn [SFcompare];
        try destruct s; try discriminate; try reflexivity.
Qed.

(** A year around a star of solar luminosity. *)
Lemma habitable_flag_needs_positive_luminosity_witness :
  let result :=
    calculate (N := number ScorerSpec.unused_libm)
      {| orbitalPeriodDays := Some (of_Q 365); semiMajorAxisAU := Some (of_Q 1);
         radiusEarth := None; massEarth := None; starTempK := None;
         starRadiusSolar := None; starMassSolar := None;
         starLuminositySolar := Some (of_Q 1); transitDepthPPM := None;
         transitDurationHours := None |} in
  PrimFloat.ltb 0 (r_starLuminositySolar result) = true /\
  PrimFloat.leb (r_habitableZoneInnerAU result) (r_semiMajorAxisAU result) = true /\
  PrimFloat.leb (r_semiMajorAxisAU result) (r_habitableZoneOuterAU result) = true.
Proof.
  apply (habitable_flag_needs_positive_luminosity ScorerSpec.unused_libm).
  vm_compute. reflexivity.
Defined.

End Binary64Guards.

(** ** The order of binary64 numbers *)

Module Binary64Order.
Import Binary64 Binary64Laws.





Lemma ltb_trans (a b c : float) :
  PrimFloat.ltb a b = true -> PrimFloat.ltb b c = true -> PrimFloat.ltb a c = true.
Proof.
  rewrite !FloatAxioms.ltb_spec. unfold SFltb.
  destruct (Prim2SF a) as [sa | sa | | sa ma ea],
           (Prim2SF b) as [sb | sb | | sb mb eb],
           (Prim2SF c) as [sc | sc | | sc mc ec];
    cbn [SFcompare];
    try destruct sa; try destruct sb; try destruct sc;
    try discriminate; try reflexivity;
    change (Pos.compare_cont Eq) with Pos.compare;
    destruct (Z.compare_spec ea eb), (Z.compare_spec eb ec), (Z.compare_spec ea ec);
    try discriminate; try reflexivity; try lia; subst;
    destruct (Pos.compare_spec ma mb), (Pos.compare_spec mb mc), (Pos.compare_spec ma mc);
    cbn [CompOpp]; try discriminate; try reflexivity; lia.
Qed.



End Binary64Order.

(** ** What the scorer front end returns *)

Module ScorerLaws.
Import Runtime MLModel ScorerSpec EngineFacts Binary64Laws Binary64Order.
Local Open Scope string_scope.
Local Open Scope list_scope.
Local Open Scope float_scope.

Section Laws.

Context {engine : Engine}.

Variable libm : Binary64.Libm.
Variable tf_load : completion TFModel.

Lemma deviation_nonempty (l : list float) (mean : float) :
  l <> [] -> exists d, deviation libm l mean = Normal d.
Proof.
  intros Hl. unfold deviation.
  destruct l as [| x t]; [contradiction |].
  cbn [map sum_nonempty]. eexists. reflexivity.
Qed.

Lemma deviation_empty (mean : float) : exists e, deviation libm [] mean = Throw e.
Proof. eexists. reflexivity. Qed.

Lemma adjacent_length (f : float -> float -> float) (prev : float) (l : list float) :
  List.length (adjacent f prev l) = List.length l.
Proof.
  revert prev. induction l as [| x t IH]; intros prev; [reflexivity |].
  cbn [adjacent List.length]. rewrite IH. reflexivity.
Qed.

Lemma with_previous_length (f : float -> float -> float) (l : list float) :
  List.length (with_previous f l) = List.length l.
Proof.
  destruct l as [| x t]; [reflexivity |].
  cbn [with_previous List.length]. rewrite adjacent_length. reflexivity.
Qed.


Lemma getFluxFeatures_within (flux : list float) :
  flux <> [] -> (List.length flux <= argument_limit)%nat ->
  exists fs, getFluxFeatures libm flux = Normal fs /\ List.length fs = 5%nat.
Proof.
  intros Hl Hshort. unfold getFluxFeatures.
  destruct (deviation_nonempty (sum flux / number_of (List.length flux)) Hl) as [d ->].
  cbn [and_then].
  rewrite spread_within by (rewrite with_previous_length; exact Hshort).
  eexists. split; reflexivity.
Qed.


Lemma getTimeFeatures_empty :
  getTimeFeatures libm []
  = Throw "TypeError: Reduce of empty array with no initial value".
Proof. reflexivity. Qed.




(** No flux: the first reduction without an initial value throws. *)
Lemma preprocess_no_flux (data : LightCurveData) :
  flux data = [] ->
  preprocessLightCurve libm data
  = Throw "TypeError: Reduce of empty array with no initial value".
Proof. intros H. unfold preprocessLightCurve. rewrite H. reflexivity. Qed.

(** A flux or time array beyond the limit: a spread call throws. *)
Lemma preprocess_beyond (data : LightCurveData) :
  flux data <> [] ->
  (argument_limit < List.length (flux data))%nat \/
  (argument_limit < List.length (time data))%nat ->
  preprocessLightCurve libm data = Throw "RangeError: Maximum call stack size exceeded".
Proof.
  intros Hflux Hlong. unfold preprocessLightCurve.
  destruct (deviation_nonempty
              (sum (flux data) / number_of (List.length (flux data))) Hflux) as [d ->].
  cbn [and_then].
  destruct (spread_cases Binary64.Math_min (flux data)) as [[Hf ->] | [_ ->]];
    [| reflexivity].
  destruct Hlong as [Hlong | Hlong]; [lia |].
  rewrite !spread_within by exact Hf. cbn [and_then].
  rewrite spread_beyond by exact Hlong. reflexivity.
Qed.

(** No time samples, with flux samples the engine can spread: the time
    features throw. *)
Lemma preprocess_no_time (data : LightCurveData) :
  flux data <> [] -> (List.length (flux data) <= argument_limit)%nat ->
  time data = [] ->
  preprocessLightCurve libm data
  = Throw "TypeError: Reduce of empty array with no initial value".
Proof.
  intros Hflux Hf Htime. unfold preprocessLightCurve.
  destruct (deviation_nonempty
              (sum (flux data) / number_of (List.length (flux data))) Hflux) as [d ->].
  destruct (getFluxFeatures_within Hflux Hf) as (ff & -> & _).
  rewrite Htime.
  rewrite !spread_within by (assumption || (cbn [List.length]; lia)).
  reflexivity.
Qed.


Lemma preprocess_throws (data : LightCurveData) :
  flux data = [] \/ time data = [] ->
  exists e, preprocessLightCurve libm data = Throw e.
Proof.
  intros Hempty.
  destruct (flux data) as [| f fl] eqn:Hf.
  - eexists. apply preprocess_no_flux. exact Hf.
  - destruct Hempty as [Hempty | Hempty]; [discriminate Hempty |].
    destruct (Nat.le_gt_cases (List.length (flux data)) argument_limit) as [Hs | Hl].
    + eexists. apply preprocess_no_time; [rewrite Hf; discriminate | exact Hs | exact Hempty].
    + eexists. apply preprocess_beyond; [rewrite Hf; discriminate | left; exact Hl].
Qed.


Lemma loadModel_completes (s : State) :
  exists s', loadModel tf_load s = (Normal tt, s').
Proof.
  unfold loadModel, _loadModel, try_catch.
  destruct (isModelLoaded s); [eexists; reflexivity |].
  destruct (loadingPromise s); [eexists; reflexivity |].
  destruct tf_load; eexists; reflexivity.
Qed.

(** A light curve with no flux or no time samples is not rejected: the
    error of the feature extraction is caught and [predict] answers with the
    mock prediction. *)
Theorem empty_light_curve_gets_mock_prediction (data : LightCurveData) (s : State) :
  flux data = [] \/ time data = [] ->
  predict libm tf_load data s = getMockPrediction data (snd (loadModel tf_load s)).
Proof.
  intros Hempty.
  destruct (preprocess_throws data Hempty) as [e He].
  destruct (loadModel_completes s) as [s' Hs'].
  unfold predict, try_catch, predict_body, bind, lift.
  rewrite Hs', He. reflexivity.
Qed.


(** Every prediction, from the scorer, the heuristic or the mock, derives
    its labels from the probability alone. *)
Lemma prediction_labels (data : LightCurveData) (s s' : State) (p : ModelPrediction) :
  predict libm tf_load data s = (Normal p, s') ->
  planetType p = classifyPlanetType (probability p) data /\
  isHabitable p = PrimFloat.ltb 0.7 (probability p) /\
  hasAtmosphere p = PrimFloat.ltb 0.6 (probability p) /\
  hasWater p = PrimFloat.ltb 0.8 (probability p) /\
  temperature p = estimateTemperature (probability p) data /\
  radius p = estimateRadius (probability p) data /\
  distanceFromStar p = estimateDistance (probability p) data.
Proof.
  unfold predict, try_catch.
  destruct (predict_body libm tf_load data s) as [[q | e] s1] eqn:Hbody.
  - intros H. apply normal_result_inj in H as [<- <-].
    revert Hbody. unfold predict_body, bind, lift, ret.
    destruct (loadModel tf_load s) as [[[] | e] s2]; [| discriminate].
    destruct (preprocessLightCurve libm data) as [features | e]; [| discriminate].
    cbv beta.
    destruct (model s2) as [scorer |].
    + destruct (scorer features) as [prob | e]; [| discriminate].
      destruct (spread Binary64.Math_max (time data)) as [timeMax | e]; [| discriminate].
      destruct (spread Binary64.Math_min (time data)) as [timeMin | e]; [| discriminate].
      destruct (spread Binary64.Math_min (flux data)) as [fluxMin | e]; [| discriminate].
      destruct (spread Binary64.Math_max (flux data)) as [fluxMax | e]; [| discriminate].
      destruct (deviation libm (flux data) _) as [d | e]; [| discriminate].
      intros H. apply normal_result_inj in H as [<- _]. repeat apply conj; reflexivity.
    + destruct (simulateModelPrediction libm features data s2) as [[prob | e] s5];
        [| discriminate].
      destruct (spread Binary64.Math_max (time data)) as [timeMax | e]; [| discriminate].
      destruct (spread Binary64.Math_min (time data)) as [timeMin | e]; [| discriminate].
      destruct (spread Binary64.Math_min (flux data)) as [fluxMin | e]; [| discriminate].
      destruct (spread Binary64.Math_max (flux data)) as [fluxMax | e]; [| discriminate].
      destruct (deviation libm (flux data) _) as [d | e]; [| discriminate].
      intros H. apply normal_result_inj in H as [<- _]. repeat apply conj; reflexivity.
  - unfold getMockPrediction, bind, random, ret.
    destruct (Math_random (rng s1)) as [u g].
    intros H. apply normal_result_inj in H as [<- _]. repeat apply conj; reflexivity.
Qed.

(** The flags of a prediction are nested: water implies habitable,
    habitable implies an atmosphere, and a habitable planet is classified
    as a Super Earth or as Terrestrial. *)
Theorem prediction_flags_nested (data : LightCurveData) (s s' : State)
    (p : ModelPrediction) :
  predict libm tf_load data s = (Normal p, s') ->
  (hasWater p = true -> isHabitable p = true) /\
  (isHabitable p = true -> hasAtmosphere p = true) /\
  (isHabitable p = true ->
   planetType p = "Super Earth" \/ planetType p = "Terrestrial").
Proof.
  intros Hpredict.
  destruct (prediction_labels data s Hpredict) as (-> & -> & -> & -> & _).
  repeat apply conj.
  - apply ltb_trans. reflexivity.
  - apply ltb_trans. reflexivity.
  - intros H. unfold classifyPlanetType. rewrite H.
    destruct (PrimFloat.ltb 0.9 (probability p)); [left | right]; reflexivity.
Qed.




(** When the model file cannot be loaded the service still reports itself
    as loaded, with the model it had before (none, on a fresh service); a
    later [loadModel] does not retry. *)
Theorem failed_load_marks_loaded (e : string) (s : State) :
  tf_load = Throw e ->
  isModelLoaded s = false -> loadingPromise s = false ->
  exists s',
    loadModel tf_load s = (Normal tt, s') /\
    isLoaded s' = (Normal true, s') /\
    model s' = model s /\
    loadModel tf_load s' = (Normal tt, s').
Proof.
  intros Hload Hl Hp.
  unfold loadModel at 1. rewrite Hl, Hp.
  unfold _loadModel, try_catch. rewrite Hload.
  eexists. split; [reflexivity |].
  repeat apply conj; reflexivity.
Qed.

End Laws.


Lemma empty_light_curve_gets_mock_prediction_witness :
  predict (engine := ParserSpec.smallest_engine) unused_libm (Throw "no model")
    {| time := []; flux := []; error := None |} (service_with (Normal 0.5))
  = getMockPrediction {| time := []; flux := []; error := None |}
      (snd (loadModel (Throw "no model") (service_with (Normal 0.5)))).
Proof.
  apply empty_light_curve_gets_mock_prediction. left. reflexivity.
Defined.

Lemma prediction_flags_nested_witness :
  exists p : ModelPrediction,
    probability p = 0.75 /\
    (hasWater p = true -> isHabitable p = true) /\
    (isHabitable p = true -> hasAtmosphere p = true) /\
    (isHabitable p = true ->
     planetType p = "Super Earth" \/ planetType p = "Terrestrial").
Proof.
  eexists. split; cycle 1.
  - eapply (@prediction_flags_nested ParserSpec.smallest_engine unused_libm
              (Throw "no model") two_samples (service_with (Normal 0.75))).
    vm_compute. reflexivity.
  - reflexivity.
Defined.


Lemma failed_load_marks_loaded_witness :
  exists s',
    loadModel (Throw "404") {| isModelLoaded := false; loadingPromise := false;
                               model := None; rng := ParserSpec.constant_rng |}
    = (Normal tt, s') /\
    isLoaded s' = (Normal true, s') /\
    model s' = None /\
    loadModel (Throw "404") s' = (Normal tt, s').
Proof.
  apply (@failed_load_marks_loaded (Throw "404") "404"); reflexivity.
Defined.

End ScorerLaws.

(** ** The CSV lines of the catalogue service *)

Module CsvLineFacts.
Import JsString ParserSpec CsvSpec ExoplanetService.
Local Open Scope string_scope.
Local Open Scope list_scope.

Lemma append_empty_r (s : string) : (s ++ EmptyString)%string = s.
Proof. induction s as [| c s IH]; [reflexivity |]. cbn [append]. rewrite IH. reflexivity. Qed.

Lemma append_assoc (a b c : string) : ((a ++ b) ++ c)%string = (a ++ (b ++ c))%string.
Proof. induction a as [| x a IH]; [reflexivity |]. cbn [append]. rewrite IH. reflexivity. Qed.

Lemma split_not_nil (sep : ascii) (s : string) : split sep s <> [].
Proof.
  destruct s as [| c s]; cbn [split]; [discriminate |].
  destruct (Ascii.eqb c sep); [discriminate |].
  destruct (split sep s); discriminate.
Qed.

Lemma loop_unquoted (line : string) (result : list string) (current : string) :
  no_quote line = true ->
  parseCSVLine_loop line result current false
  = result ++ map trim (match split "," line with
                        | h :: t => (current ++ h)%string :: t
                        | [] => []
                        end).
Proof.
  revert result current.
  induction line as [| c rest IH]; intros result current Hq.
  - cbn [parseCSVLine_loop split map]. rewrite append_empty_r. reflexivity.
  - unfold no_quote in Hq. cbn [all_chars] in Hq.
    apply andb_prop in Hq. destruct Hq as [Hc Hrest].
    apply negb_true_iff in Hc.
    cbn [parseCSVLine_loop split]. rewrite Hc. cbn [negb]. rewrite andb_true_r.
    destruct (Ascii.eqb c ",").
    + rewrite (IH _ _ Hrest). rewrite <- app_assoc. cbn [map app].
      rewrite append_empty_r.
      destruct (split "," rest) as [| h t]; reflexivity.
    + rewrite (IH _ _ Hrest).
      assert (Hs := split_not_nil "," rest).
      destruct (split "," rest) as [| h t]; [contradiction |].
      rewrite append_assoc. reflexivity.
Qed.

(** On a line without double quotes [parseCSVLine] is the plain split at
    commas, each cell trimmed. *)
Theorem parseCSVLine_without_quotes (line : string) :
  no_quote line = true ->
  parseCSVLine line = map trim (split "," line).
Proof.
  intros Hq. unfold parseCSVLine. rewrite loop_unquoted by assumption.
  destruct (split "," line) as [| h t]; reflexivity.
Qed.

Lemma parseCSVLine_without_quotes_witness :
  parseCSVLine "Kepler-22 b, 2.4 ,289.9" = map trim (split "," "Kepler-22 b, 2.4 ,289.9").
Proof. apply parseCSVLine_without_quotes. reflexivity. Defined.

Lemma loop_in_quotes (cell rest : string) (result : list string) (current : string) :
  no_quote cell = true ->
  parseCSVLine_loop (cell ++ rest) result current true
  = parseCSVLine_loop rest result (current ++ cell) true.
Proof.
  revert current.
  induction cell as [| c cell IH]; intros current Hq.
  - rewrite append_empty_r. reflexivity.
  - unfold no_quote in Hq. cbn [all_chars] in Hq.
    apply andb_prop in Hq. destruct Hq as [Hc Hcell].
    apply negb_true_iff in Hc.
    cbn [append parseCSVLine_loop]. rewrite Hc. cbn [negb]. rewrite andb_false_r.
    rewrite (IH _ Hcell), append_assoc. reflexivity.
Qed.

Lemma loop_quoted (cell rest : string) (result : list string) (current : string) :
  no_quote cell = true ->
  parseCSVLine_loop (quoted cell ++ rest) result current false
  = parseCSVLine_loop rest result (current ++ cell) false.
Proof.
  intros Hq. unfold quoted.
  cbn [append parseCSVLine_loop Ascii.eqb Bool.eqb negb].
  rewrite append_assoc, loop_in_quotes by assumption. reflexivity.
Qed.

(** Cells written between double quotes and joined by commas come back as
    they were, trimmed: the quotes are dropped and a comma inside a cell
    does not split it. *)
Theorem parseCSVLine_reads_quoted_cells (cells : list string) :
  cells <> [] ->
  forallb no_quote cells = true ->
  parseCSVLine (join "," (map quoted cells)) = map trim cells.
Proof.
  intros Hne Hq. unfold parseCSVLine.
  change (map trim cells) with ([] ++ map trim cells).
  generalize (@nil string) as result.
  induction cells as [| c cs IH]; [contradiction |]; intros result.
  cbn [forallb] in Hq. apply andb_prop in Hq. destruct Hq as [Hc Hcs].
  destruct cs as [| c2 cs].
  - cbn [map join]. rewrite <- (append_empty_r (quoted c)).
    rewrite loop_quoted by assumption. reflexivity.
  - change (join "," (map quoted (c :: c2 :: cs)))
      with (quoted c ++ String "," (join "," (map quoted (c2 :: cs))))%string.
    rewrite loop_quoted by assumption.
    cbn [parseCSVLine_loop Ascii.eqb Bool.eqb negb andb append].
    rewrite IH by (discriminate || assumption).
    rewrite <- app_assoc. reflexivity.
Qed.

Lemma parseCSVLine_reads_quoted_cells_witness :
  parseCSVLine (join "," (map quoted ["Kepler-22 b"; "2.4, approx"; " 289.9 "]))
  = map trim ["Kepler-22 b"; "2.4, approx"; " 289.9 "].
Proof.
  apply parseCSVLine_reads_quoted_cells; [discriminate | reflexivity].
Defined.

End CsvLineFacts.

(** ** Validation of a catalogue row by the scorer *)

Module ValidationByScorer.
Import Runtime MLModel ExoplanetService.
Local Open Scope list_scope.

Section Facts.

Context {engine : Engine}.

Variable libm : Binary64.Libm.
Variable tf_load : completion TFModel.
Variable exp_approx : float -> float.

Lemma synthetic_flux_completes (period : float) (time : list float) (s : State) :
  exists fl s', synthetic_flux libm exp_approx period time s = (Normal fl, s').
Proof.
  revert s. induction time as [| t rest IH]; intros s.
  - eexists. eexists. reflexivity.
  - cbn [synthetic_flux]. unfold bind at 1. unfold random.
    destruct (Math_random (rng s)) as [u g].
    unfold bind at 1.
    match goal with
    | |- context [synthetic_flux libm exp_approx period rest ?s1] =>
        destruct (IH s1) as (fl & s' & ->)
    end.
    eexists. eexists. reflexivity.
Qed.

Lemma generateSyntheticLightCurve_completes (exoplanet : ExoplanetData) (s : State) :
  exists lc s',
    generateSyntheticLightCurve libm exp_approx exoplanet s = (Normal lc, s').
Proof.
  unfold generateSyntheticLightCurve, bind.
  match goal with
  | |- context [synthetic_flux libm exp_approx ?p ?t s] =>
      destruct (synthetic_flux_completes p t s) as (fl & s' & ->)
  end.
  eexists. eexists. reflexivity.
Qed.

(** [validateWithML] never takes its [catch] branch: it always completes
    with a prediction attached.  The row keeps its identity, orbit, sizes,
    star, gravity, habitable-zone flag and source; its equilibrium
    temperature is replaced by the scorer's temperature, and its confidence
    by the larger of the two confidences. *)
Theorem validateWithML_attaches_prediction (exoplanet : ExoplanetData) (s : State) :
  exists (validated : ExoplanetData) (prediction : ModelPrediction) (s' : State),
    validateWithML libm tf_load exp_approx exoplanet s = (Normal validated, s') /\
    mlPrediction validated = Some prediction /\
    equilibriumTempK validated = MLModel.temperature prediction /\
    ExoplanetService.confidence validated
    = Binary64.max2 (ExoplanetService.confidence exoplanet)
                    (MLModel.confidence prediction) /\
    id validated = id exoplanet /\ name validated = name exoplanet /\
    orbitalPeriodDays validated = orbitalPeriodDays exoplanet /\
    semiMajorAxisAU validated = semiMajorAxisAU exoplanet /\
    radiusEarth validated = radiusEarth exoplanet /\
    massEarth validated = massEarth exoplanet /\
    starTempK validated = starTempK exoplanet /\
    starRadiusSolar validated = starRadiusSolar exoplanet /\
    starMassSolar validated = starMassSolar exoplanet /\
    surfaceGravity validated = surfaceGravity exoplanet /\
    inHabitableZone validated = inHabitableZone exoplanet /\
    dataSource validated = dataSource exoplanet.
Proof.
  destruct (generateSyntheticLightCurve_completes exoplanet s) as (lc & s1 & Hlc).
  destruct (ScorerFacts.predict_completes libm tf_load lc s1) as (p & s2 & Hp).
  unfold validateWithML, try_catch, bind, ret.
  rewrite Hlc, Hp.
  eexists. exists p. eexists.
  split; [reflexivity |].
  repeat apply conj; reflexivity.
Qed.

End Facts.

End ValidationByScorer.

(** ** Reading a scorer prediction for display *)

Module DisplayFacts.
Import PredictionUtils.

(** The display helpers read [physicsValidation], which a prediction of the
    scorer does not have: for every scorer prediction they report
    not habitable and not physically plausible, whatever its own
    [isHabitable] flag says, and they return its probability, confidence,
    temperature, radius and distance unchanged. *)
Theorem display_ignores_habitable_flag (m : MLModel.ModelPrediction) :
  isHabitable (of_model_prediction m) = false /\
  isPhysicallyPlausible (of_model_prediction m) = false /\
  getProbability (of_model_prediction m) = MLModel.probability m /\
  getConfidence (of_model_prediction m) = MLModel.confidence m /\
  getTemperature (of_model_prediction m) = MLModel.temperature m /\
  getRadius (of_model_prediction m) = MLModel.radius m /\
  getDistance (of_model_prediction m) = MLModel.distanceFromStar m.
Proof. repeat apply conj; reflexivity. Qed.

End DisplayFacts.

(** ** Uploading a FITS file *)

Module FitsUpload.
Import JsString Global Runtime DataParser FileUpload ParserSpec ParserEdgeCases.
Local Open Scope string_scope.

Lemma endsWith_last (s suffix : string) (c : ascii) :
  endsWith s suffix = true ->
  get (String.length suffix - 1) suffix = Some c ->
  get (String.length s - 1) s = Some c.
Proof.
  unfold endsWith. intros H Hc.
  apply andb_prop in H. destruct H as [Hlen Heq].
  apply Nat.leb_le in Hlen. apply String.eqb_eq in Heq.
  assert (Hpos : (0 < String.length suffix)%nat).
  { destruct suffix; [discriminate Hc | cbn [String.length]; lia]. }
  rewrite <- Heq in Hc at 2.
  rewrite substring_correct1 in Hc by lia.
  replace (String.length s - 1)%nat
    with (String.length suffix - 1 + (String.length s - String.length suffix))%nat by lia.
  exact Hc.
Qed.

Lemma fits_is_not_csv (s : string) :
  endsWith s ".fits" = true -> endsWith s ".csv" = false.
Proof.
  intros Hf. destruct (endsWith s ".csv") eqn:Hc; [| reflexivity].
  assert (H1 := @endsWith_last s ".fits" "s" Hf eq_refl).
  assert (H2 := @endsWith_last s ".csv" "v" Hc eq_refl).
  rewrite H1 in H2. discriminate H2.
Qed.

Section WithEngine.
Context {engine : Engine}.

(** A file whose name ends in .fits, in any letter case, is never read:
    whatever it holds, the result is the generated mock light curve of
    50000 samples with target mock_target. *)
Theorem fits_upload_ignores_content (name : string) (content content' : FileContent)
    (g : RNG) :
  endsWith (toLowerCase name) ".fits" = true ->
  parseFileData name content g = parseFileData name content' g /\
  exists lc g',
    parseFileData name content g = (Normal lc, g') /\
    length_Z (time lc) = 50000%Z /\ length_Z (flux lc) = 50000%Z /\
    targetId (metadata lc) = Some "mock_target".
Proof.
  intros Hfits. unfold parseFileData.
  rewrite (fits_is_not_csv _ Hfits), Hfits.
  split; [reflexivity |].
  change (parseFITSData g) with (generateMockLightCurve g).
  destruct (mock_light_curve_length g) as (Ht & Hf & _).
  revert Ht Hf.
  assert (Hid : targetId (metadata (fst (generateMockLightCurve g))) = Some "mock_target")
    by reflexivity.
  revert Hid.
  destruct (generateMockLightCurve g) as [lc g']. cbn [fst].
  intros Hid Ht Hf. exists lc, g'. repeat apply conj; try assumption. reflexivity.
Qed.

End WithEngine.

Lemma fits_upload_ignores_content_witness :
  parseFileData (engine := smallest_engine) "kplr010666592.FITS" (Text "not a FITS file")
    constant_rng
  = parseFileData (engine := smallest_engine) "kplr010666592.FITS" (Bytes []) constant_rng /\
  exists lc g',
    parseFileData (engine := smallest_engine) "kplr010666592.FITS" (Text "not a FITS file")
      constant_rng
    = (Normal lc, g') /\
    length_Z (time lc) = 50000%Z /\ length_Z (flux lc) = 50000%Z /\
    targetId (metadata lc) = Some "mock_target".
Proof. apply fits_upload_ignores_content. reflexivity. Defined.

End FitsUpload.

(** ** The text parser on a numeric table *)

Module TextParserFacts.
Import JsString Global Runtime DataParser ParserSpec TextSpec JsStringFacts ParserFacts.
Local Open Scope list_scope.
Local Open Scope string_scope.

Lemma is_empty_app_r (a b : string) : is_empty b = false -> is_empty (a ++ b) = false.
Proof. intros Hb. destruct a; [exact Hb | reflexivity]. Qed.

Lemma trimEnd_join (sep : string) (pieces : list string) :
  pieces <> [] ->
  Forall (fun l => trimEnd l = l /\ is_empty l = false) pieces ->
  trimEnd (join sep pieces) = join sep pieces /\ is_empty (join sep pieces) = false.
Proof.
  intros Hne Hall. induction Hall as [| l pieces [Hl Hl'] Hall IH]; [contradiction |].
  destruct pieces as [| l2 pieces].
  - cbn [join]. split; assumption.
  - change (join sep (l :: l2 :: pieces)) with (l ++ (sep ++ join sep (l2 :: pieces))).
    destruct IH as [IH1 IH2]; [discriminate |].
    assert (Htail : trimEnd (sep ++ join sep (l2 :: pieces))
                    = sep ++ join sep (l2 :: pieces)).
    { rewrite trimEnd_app by (rewrite IH1; exact IH2). rewrite IH1. reflexivity. }
    split.
    + rewrite trimEnd_app; rewrite Htail; [reflexivity |].
      apply is_empty_app_r. exact IH2.
    + destruct l; [discriminate Hl' | reflexivity].
Qed.

Lemma trimStart_leading (s : string) : no_leading_space s = true -> trimStart s = s.
Proof.
  destruct s as [| c s]; [discriminate |].
  cbn [no_leading_space trimStart]. intros H.
  apply negb_true_iff in H. rewrite H. reflexivity.
Qed.

Lemma no_leading_space_app (a b : string) :
  no_leading_space a = true -> no_leading_space (a ++ b) = true.
Proof. destruct a; [discriminate | intros H; exact H]. Qed.

Lemma cell_no_leading_space (s : string) :
  no_space s = true -> is_empty s = false -> no_leading_space s = true.
Proof.
  destruct s as [| c s]; [discriminate |].
  cbn [no_space all_chars no_leading_space]. intros H _.
  apply andb_true_iff in H as [H _]. exact H.
Qed.

Lemma join_cons (sep s : string) (l : list string) :
  exists rest, join sep (s :: l) = s ++ rest.
Proof.
  destruct l as [| s' l].
  - exists EmptyString. cbn [join]. symmetry. apply CsvLineFacts.append_empty_r.
  - eexists. reflexivity.
Qed.

(** The lines of a text whose lines neither start nor end with white
    space. *)
Lemma lines_of_trimmed_text (lines : list string) (trailer : string) :
  lines <> [] ->
  Forall (fun l => no_leading_space l = true /\ trimEnd l = l /\
                   all_chars (fun c => negb (Ascii.eqb c "010")) l = true) lines ->
  all_chars is_whitespace trailer = true ->
  split "010" (trim (join newline lines ++ trailer)) = lines.
Proof.
  intros Hne Hall Htrailer.
  assert (Hstart : trimStart (join newline lines ++ trailer)
                   = join newline lines ++ trailer).
  { apply trimStart_leading.
    destruct lines as [| l lines]; [contradiction |].
    inversion Hall as [| ? ? (Hl & _) _]; subst.
    destruct (join_cons newline l lines) as [rest ->].
    apply no_leading_space_app, no_leading_space_app. exact Hl. }
  unfold trim. rewrite Hstart, trimEnd_trailer by exact Htrailer.
  destruct (@trimEnd_join newline lines Hne) as [-> _].
  - eapply Forall_impl; [| exact Hall].
    intros l (Hl & Hl' & _). split; [exact Hl' |].
    destruct l; [discriminate Hl | reflexivity].
  - apply split_join; [exact Hne |].
    eapply Forall_impl; [| exact Hall]. intros l (_ & _ & Hl). exact Hl.
Qed.

Lemma split_spaces_cell (r : bool) (s : string) :
  no_space s = true -> is_empty s = false -> split_spaces_from r s = [s].
Proof.
  revert r. induction s as [| c s IH]; intros r Hs Hne; [discriminate Hne |].
  cbn [no_space all_chars] in Hs. apply andb_true_iff in Hs as [Hc Hs].
  apply negb_true_iff in Hc.
  cbn [split_spaces_from]. rewrite Hc.
  destruct s as [| c' s']; [reflexivity |].
  rewrite (IH false Hs eq_refl). reflexivity.
Qed.

Lemma split_spaces_app (r : bool) (s rest : string) :
  no_space s = true -> is_empty s = false ->
  split_spaces_from r (s ++ String " " rest) = s :: split_spaces_from true rest.
Proof.
  revert r. induction s as [| c s IH]; intros r Hs Hne; [discriminate Hne |].
  cbn [no_space all_chars] in Hs. apply andb_true_iff in Hs as [Hc Hs].
  apply negb_true_iff in Hc.
  cbn [append split_spaces_from]. rewrite Hc.
  destruct s as [| c' s'].
  - reflexivity.
  - rewrite (IH false Hs eq_refl). reflexivity.
Qed.

Lemma split_spaces_join (r : bool) (cells : list string) :
  cells <> [] -> Forall numeric_cell cells ->
  split_spaces_from r (text_line cells) = cells.
Proof.
  intros Hne Hall. revert r.
  induction Hall as [| s cells Hs Hcells IH]; [contradiction |]; intros r.
  assert (Hspace := plain_no_space _ (proj1 Hs)).
  assert (Hfull := numeric_cell_not_empty Hs).
  destruct cells as [| s' cells].
  - apply split_spaces_cell; assumption.
  - change (text_line (s :: s' :: cells)) with (s ++ String " " (text_line (s' :: cells))).
    rewrite split_spaces_app by assumption.
    rewrite IH by discriminate. reflexivity.
Qed.

Lemma text_line_shape (row : list string) :
  row <> [] -> Forall numeric_cell row ->
  no_leading_space (text_line row) = true /\
  trimEnd (text_line row) = text_line row /\
  all_chars (fun c => negb (Ascii.eqb c "010")) (text_line row) = true /\
  is_comment_or_blank (text_line row) = false.
Proof.
  intros Hne Hrow.
  destruct row as [| s row]; [contradiction |].
  inversion Hrow as [| ? ? Hs Hrest]; subst.
  destruct (join_cons " " s row) as [rest Hrest'].
  repeat apply conj.
  - unfold text_line. rewrite Hrest'. apply no_leading_space_app.
    apply cell_no_leading_space;
      [apply plain_no_space, Hs | apply numeric_cell_not_empty, Hs].
  - apply trimEnd_join; [discriminate |].
    eapply Forall_impl; [| exact Hrow].
    intros c Hc. split; [| apply numeric_cell_not_empty, Hc].
    apply trimEnd_no_space, plain_no_space, Hc.
  - apply all_chars_join; [reflexivity |].
    eapply Forall_impl; [| exact Hrow].
    intros c Hc. apply no_space_no_newline, plain_no_space, Hc.
  - unfold text_line. rewrite Hrest'. apply number_not_comment, Hs.
Qed.

Lemma parse_text_line_numeric (row : list string) (acc : Columns) :
  numeric_text_row row ->
  parse_text_line (text_line row) acc
  = {| c_time := (c_time acc ++ [cell_value 0 row])%list;
       c_flux := (c_flux acc ++ [cell_value 1 row])%list;
       c_error := (c_error acc ++ [cell_value 2 row])%list |}.
Proof.
  intros [Hlen Hrow].
  assert (Hne : row <> []) by (destruct row; [cbn in Hlen; lia | discriminate]).
  destruct (text_line_shape Hne Hrow) as (Hlead & Hend & _ & _).
  unfold parse_text_line, trim.
  rewrite (trimStart_leading _ Hlead), Hend.
  unfold split_spaces. rewrite split_spaces_join by assumption.
  destruct row as [| a [| b [| c rest]]]; cbn [List.length] in Hlen; try lia.
  inversion Hrow as [| ? ? Ha Hrow1]; subst.
  inversion Hrow1 as [| ? ? Hb Hrow2]; subst.
  inversion Hrow2 as [| ? ? Hc _]; subst.
  change (parseFloat_at (a :: b :: c :: rest) 0) with (parseFloat a).
  change (parseFloat_at (a :: b :: c :: rest) 1) with (parseFloat b).
  change (parseFloat_at (a :: b :: c :: rest) 2) with (parseFloat c).
  destruct Ha as [_ Ha], Hb as [_ Hb], Hc as [_ Hc].
  cbn [List.length Nat.leb]. rewrite Ha, Hb, Hc. reflexivity.
Qed.

Lemma parse_text_lines_numeric (rows : list (list string)) (acc : Columns) :
  Forall numeric_text_row rows ->
  fold_left (fun acc line => parse_text_line line acc) (map text_line rows) acc
  = {| c_time := (c_time acc ++ map (cell_value 0) rows)%list;
       c_flux := (c_flux acc ++ map (cell_value 1) rows)%list;
       c_error := (c_error acc ++ map (cell_value 2) rows)%list |}.
Proof.
  intros Hrows. revert acc.
  induction Hrows as [| row rows Hrow _ IH]; intros acc.
  - cbn [map fold_left]. rewrite !app_nil_r. destruct acc; reflexivity.
  - cbn [map fold_left]. rewrite (parse_text_line_numeric acc Hrow), IH.
    cbn [c_time c_flux c_error]. rewrite <- !app_assoc. reflexivity.
Qed.

(** The text parser reads back a numeric table: for rows of at least three
    numeric cells, separated by single spaces and line feeds and followed
    by any white space, the three arrays are the first three columns, row
    by row. *)
Theorem text_table_parses (rows : list (list string)) (trailer : string) :
  rows <> [] ->
  Forall numeric_text_row rows ->
  all_chars is_whitespace trailer = true ->
  parseTextData (text_table rows ++ trailer)
  = {| time := map (cell_value 0) rows;
       flux := map (cell_value 1) rows;
       error := Some (map (cell_value 2) rows);
       metadata := {| source := unknown; targetId := None;
                      campaign := None; sector := None |} |}.
Proof.
  intros Hne Hrows Htrailer.
  assert (Hshape : Forall (fun l => no_leading_space l = true /\ trimEnd l = l /\
                     all_chars (fun c => negb (Ascii.eqb c "010")) l = true /\
                     is_comment_or_blank l = false) (map text_line rows)).
  { apply Forall_map. eapply Forall_impl; [| exact Hrows].
    intros row [Hlen Hrow]. apply text_line_shape; [| exact Hrow].
    destruct row; [cbn in Hlen; lia | discriminate]. }
  unfold parseTextData, text_table.
  rewrite lines_of_trimmed_text;
    [| destruct rows; [contradiction | discriminate]
     | eapply Forall_impl; [| exact Hshape]; intros l (H1 & H2 & H3 & _); auto
     | exact Htrailer].
  assert (Hkeep :
    filter (fun line => negb (is_empty (trim line)) && negb (startsWith line "#")
                        && negb (startsWith line "%")) (map text_line rows)
    = map text_line rows).
  { apply forallb_filter_id. apply forallb_forall. intros l Hin.
    rewrite Forall_forall in Hshape. destruct (Hshape l Hin) as (H1 & H2 & _ & H4).
    unfold trim. rewrite (trimStart_leading _ H1), H2.
    unfold is_comment_or_blank in H4.
    apply orb_false_iff in H4 as [H4 H6]. apply orb_false_iff in H4 as [H4 H5].
    rewrite H4, H5, H6. reflexivity. }
  rewrite Hkeep, parse_text_lines_numeric by exact Hrows.
  cbn [c_time c_flux c_error no_columns app].
  destruct rows as [| row rows']; [contradiction |]. reflexivity.
Qed.

Lemma text_table_parses_witness :
  parseTextData (text_table [["131.5"; "0.99"; "0.0002"]; ["131.6"; "1.01"; "0.0003"; "7"]]
                 ++ newline)
  = {| time := map (cell_value 0)
                 [["131.5"; "0.99"; "0.0002"]; ["131.6"; "1.01"; "0.0003"; "7"]];
       flux := map (cell_value 1)
                 [["131.5"; "0.99"; "0.0002"]; ["131.6"; "1.01"; "0.0003"; "7"]];
       error := Some (map (cell_value 2)
                 [["131.5"; "0.99"; "0.0002"]; ["131.6"; "1.01"; "0.0003"; "7"]]);
       metadata := {| source := unknown; targetId := None;
                      campaign := None; sector := None |} |}.
Proof.
  apply text_table_parses.
  - discriminate.
  - repeat (apply Forall_cons;
            [split; [cbn; lia |
                     repeat (apply Forall_cons; [split; vm_compute; reflexivity |]);
                     apply Forall_nil] |]).
    apply Forall_nil.
  - reflexivity.
Defined.

End TextParserFacts.
